(** * Yoga Image Optimizer: the image store and the application controller

    A shallow embedding of [yoga_image_optimizer/image_store.py] and
    [yoga_image_optimizer/application.py].  Python methods that mutate an
    object or raise become functions in a state-and-exception monad; the
    toolkit objects they drive (the [Gtk.ListStore], the thread pool, the
    GLib main loop) are kept as plain data. *)

From Stdlib Require Import ZArith String Ascii List DecimalString.
From Stdlib Require Import PrimFloat SpecFloat FloatOps.
From stdpp Require Import base option list strings gmap.

Local Open Scope Z_scope.

(** ** Python values, exceptions and control flow *)

Module Py.

(** The exceptions the two modules can raise.  [KeyError] carries its
    argument rendered as text. *)
Inductive exn : Type :=
| KeyError (arg : string)
| IndexError
| ValueError
| TypeError
| ZeroDivisionError
| AttributeError
| RuntimeError
| OSError.

Inductive outcome (A : Type) : Type :=
| Return (a : A)
| Raise (e : exn).
Arguments Return {A} a.
Arguments Raise {A} e.

(** A method over a mutable object of type [S]: it either returns or
    raises, and in both cases leaves the object in some state. *)
Definition M (S A : Type) : Type := S -> outcome A * S.

Definition ret {S A} (a : A) : M S A := fun s => (Return a, s).

Definition raise {S A} (e : exn) : M S A := fun s => (Raise e, s).

Definition bind {S A B} (m : M S A) (k : A -> M S B) : M S B :=
  fun s =>
    match m s with
    | (Return a, s') => k a s'
    | (Raise e, s') => (Raise e, s')
    end.

Definition gets {S A} (f : S -> A) : M S A := fun s => (Return (f s), s).

Definition modify {S} (f : S -> S) : M S unit := fun s => (Return tt, f s).

Definition lift {S A} (o : outcome A) : M S A := fun s => (o, s).

(** [try: m  except e: h e] *)
Definition try_except {S A} (m : M S A) (h : exn -> M S A) : M S A :=
  fun s =>
    match m s with
    | (Return a, s') => (Return a, s')
    | (Raise e, s') => h e s'
    end.

(** [if c: m] with no [else]. *)
Definition when {S} (c : bool) (m : M S unit) : M S unit :=
  if c then m else ret tt.

(** [for x in l: body x] *)
Fixpoint for_each {S A} (l : list A) (body : A -> M S unit) : M S unit :=
  match l with
  | [] => ret tt
  | x :: l' => bind (body x) (fun _ => for_each l' body)
  end.

(** [for x in l: acc = body x acc], a loop that carries a variable. *)
Fixpoint for_acc {S A B} (l : list A) (acc : B) (body : A -> B -> M S B)
    : M S B :=
  match l with
  | [] => ret acc
  | x :: l' => bind (body x acc) (fun acc' => for_acc l' acc' body)
  end.

(** [[f x for x in l]], evaluated in order. *)
Fixpoint collect {S A B} (l : list A) (f : A -> M S B) : M S (list B) :=
  match l with
  | [] => ret []
  | x :: l' =>
      bind (f x) (fun y => bind (collect l' f) (fun ys => ret (y :: ys)))
  end.

(** [d[key]] on a dictionary: a missing key raises [KeyError(key)]. *)
Definition subscript {S A} (d : option A) (key : string) : M S A :=
  match d with
  | Some a => ret a
  | None => raise (KeyError key)
  end.

(** [m] leaves the observation [f] of the object as it was, whether it
    returns or raises. *)
Definition preserves {S A X} (f : S -> X) (m : M S A) : Prop :=
  forall s, f (m s).2 = f s.

(** Conversion of an [int] to a [float], correctly rounded. *)
Definition float_of_int (z : Z) : float :=
  SF2Prim (binary_normalize prec emax z 0 false).

(** [a / b] on two [int]s: true division.  The quotient of the two
    converted operands is Python's result whenever both are below
    [2^53] in magnitude, where the conversions are exact. *)
Definition truediv (a b : Z) : outcome float :=
  if b =? 0 then Raise ZeroDivisionError
  else Return (float_of_int a / float_of_int b)%float.

(** ["%i" % n] *)
Definition pct_i (n : Z) : string := NilZero.string_of_int (Z.to_int n).

(** [str.lower], on the ASCII letters. *)
Definition ascii_lower (c : ascii) : ascii :=
  let n := nat_of_ascii c in
  if ((65 <=? n)%nat && (n <=? 90)%nat)%bool then ascii_of_nat (n + 32) else c.

Fixpoint lower (s : string) : string :=
  match s with
  | EmptyString => EmptyString
  | String c s' => String (ascii_lower c) (lower s')
  end.

End Py.
Import Py.

Declare Scope py_scope.
Delimit Scope py_scope with py.
Notation "x <- m ;; k" := (bind m (fun x => k))
  (at level 100, m at next level, right associativity) : py_scope.
Notation "m ;; k" := (bind m (fun _ => k))
  (at level 100, right associativity) : py_scope.
Local Open Scope py_scope.

(** ** What the two modules import

    [image_formats], [translation] and [helpers] belong to the package but
    are other modules; [pathlib] and [os.path] are Python's.  The embedding
    is parametric in all of them. *)

Record ImageFormat := {
  display_name : string;
  exts : list string;
}.

(** A handle on a [GdkPixbuf.Pixbuf]. *)
Definition Pixbuf : Type := N.

Class Env := {
  (** [image_formats.IMAGES_FORMATS] *)
  IMAGES_FORMATS : gmap string ImageFormat;
  (** [translation.gettext] *)
  gettext : string -> string;
  (** [translation.format_string] at a [float] argument *)
  format_string : string -> float -> string;
  (** [helpers.human_readable_file_size] *)
  human_readable_file_size : Z -> string;
  (** [helpers.add_suffix_to_filename] *)
  add_suffix_to_filename : string -> string;
  (** [helpers.preview_gdk_pixbuf_from_path] *)
  preview_gdk_pixbuf_from_path : string -> Pixbuf;
  (** [Path(p).name] *)
  path_name : string -> string;
  (** [Path(p).parent] *)
  path_parent : string -> string;
  (** [Path(p).suffix] *)
  path_suffix : string -> string;
  (** [str(Path(p).with_suffix(ext))]; raises [ValueError] on a path with
      no name or on an invalid suffix *)
  path_with_suffix : string -> string -> outcome string;
  (** [os.path.relpath(p, start=q)] *)
  os_path_relpath : string -> string -> string;
}.

(** ** The image store ([image_store.py]) *)

Module ImageStore.

(** The values a column of the store can hold. *)
Inductive Value : Type :=
| VStr (s : string)
| VInt (n : Z)
| VBool (b : bool)
| VNone
| VPixbuf (p : Pixbuf).

Inductive FieldType : Type := TStr | TInt | TBool | TPixbuf.

(** An entry of [FIELDS]; the labels, which only title the columns of
    the tree view, are left out. *)
Record FieldInfo := {
  f_id : nat;
  f_type : FieldType;
  f_default : Value;
}.

Definition SEPARATOR : string := "➡️".

Definition FIELDS : list (string * FieldInfo) := [
  ("input_file", {| f_id := 0; f_type := TStr; f_default := VStr "" |});
  ("output_file", {| f_id := 1; f_type := TStr; f_default := VStr "" |});
  ("input_file_display", {| f_id := 2; f_type := TStr; f_default := VStr "" |});
  ("output_file_display", {| f_id := 3; f_type := TStr; f_default := VStr "" |});
  ("input_size", {| f_id := 4; f_type := TInt; f_default := VInt 0 |});
  ("output_size", {| f_id := 5; f_type := TInt; f_default := VInt 0 |});
  ("input_size_display", {| f_id := 6; f_type := TStr; f_default := VStr "" |});
  ("output_size_display", {| f_id := 7; f_type := TStr; f_default := VStr "" |});
  ("input_format", {| f_id := 8; f_type := TStr; f_default := VStr "" |});
  ("output_format", {| f_id := 9; f_type := TStr; f_default := VStr "" |});
  ("output_format_display", {| f_id := 10; f_type := TStr; f_default := VStr "" |});
  ("preview", {| f_id := 11; f_type := TPixbuf; f_default := VNone |});
  ("separator", {| f_id := 12; f_type := TStr; f_default := VStr SEPARATOR |});
  ("status", {| f_id := 13; f_type := TInt; f_default := VInt 0 |});
  ("status_display", {| f_id := 14; f_type := TStr; f_default := VStr "" |});
  ("jpeg_quality", {| f_id := 15; f_type := TInt; f_default := VInt 90 |});
  ("webp_quality", {| f_id := 16; f_type := TInt; f_default := VInt 90 |});
  ("png_slow_optimization", {| f_id := 17; f_type := TBool; f_default := VBool false |})
].

Definition STATUS_NONE : Z := 0.
Definition STATUS_PENDING : Z := 1.
Definition STATUS_IN_PROGRESS : Z := 2.
Definition STATUS_DONE : Z := 3.

(** [name in FIELDS] and [FIELDS[name]] *)
Fixpoint assoc {A} (key : string) (l : list (string * A)) : option A :=
  match l with
  | [] => None
  | (k, a) :: l' => if String.eqb key k then Some a else assoc key l'
  end.

(** A row of the [Gtk.ListStore].  The store is created with one typed
    column per field, in the order of the ids, so a row is a record with
    one typed component per column; [get] returns it as the dictionary
    from field names to values. *)
Record Row := mkRow {
  input_file : string;
  output_file : string;
  input_file_display : string;
  output_file_display : string;
  input_size : Z;
  output_size : Z;
  input_size_display : string;
  output_size_display : string;
  input_format : string;
  output_format : string;
  output_format_display : string;
  preview : option Pixbuf;
  separator : string;
  status : Z;
  status_display : string;
  jpeg_quality : Z;
  webp_quality : Z;
  png_slow_optimization : bool
}.

Definition set_input_file (x : string) (r : Row) : Row :=
  mkRow x (output_file r) (input_file_display r) (output_file_display r) (input_size r) (output_size r) (input_size_display r) (output_size_display r) (input_format r) (output_format r) (output_format_display r) (preview r) (separator r) (status r) (status_display r) (jpeg_quality r) (webp_quality r) (png_slow_optimization r).
Definition set_output_file (x : string) (r : Row) : Row :=
  mkRow (input_file r) x (input_file_display r) (output_file_display r) (input_size r) (output_size r) (input_size_display r) (output_size_display r) (input_format r) (output_format r) (output_format_display r) (preview r) (separator r) (status r) (status_display r) (jpeg_quality r) (webp_quality r) (png_slow_optimization r).
Definition set_input_file_display (x : string) (r : Row) : Row :=
  mkRow (input_file r) (output_file r) x (output_file_display r) (input_size r) (output_size r) (input_size_display r) (output_size_display r) (input_format r) (output_format r) (output_format_display r) (preview r) (separator r) (status r) (status_display r) (jpeg_quality r) (webp_quality r) (png_slow_optimization r).
Definition set_output_file_display (x : string) (r : Row) : Row :=
  mkRow (input_file r) (output_file r) (input_file_display r) x (input_size r) (output_size r) (input_size_display r) (output_size_display r) (input_format r) (output_format r) (output_format_display r) (preview r) (separator r) (status r) (status_display r) (jpeg_quality r) (webp_quality r) (png_slow_optimization r).
Definition set_input_size (x : Z) (r : Row) : Row :=
  mkRow (input_file r) (output_file r) (input_file_display r) (output_file_display r) x (output_size r) (input_size_display r) (output_size_display r) (input_format r) (output_format r) (output_format_display r) (preview r) (separator r) (status r) (status_display r) (jpeg_quality r) (webp_quality r) (png_slow_optimization r).
Definition set_output_size (x : Z) (r : Row) : Row :=
  mkRow (input_file r) (output_file r) (input_file_display r) (output_file_display r) (input_size r) x (input_size_display r) (output_size_display r) (input_format r) (output_format r) (output_format_display r) (preview r) (separator r) (status r) (status_display r) (jpeg_quality r) (webp_quality r) (png_slow_optimization r).
Definition set_input_size_display (x : string) (r : Row) : Row :=
  mkRow (input_file r) (output_file r) (input_file_display r) (output_file_display r) (input_size r) (output_size r) x (output_size_display r) (input_format r) (output_format r) (output_format_display r) (preview r) (separator r) (status r) (status_display r) (jpeg_quality r) (webp_quality r) (png_slow_optimization r).
Definition set_output_size_display (x : string) (r : Row) : Row :=
  mkRow (input_file r) (output_file r) (input_file_display r) (output_file_display r) (input_size r) (output_size r) (input_size_display r) x (input_format r) (output_format r) (output_format_display r) (preview r) (separator r) (status r) (status_display r) (jpeg_quality r) (webp_quality r) (png_slow_optimization r).
Definition set_input_format (x : string) (r : Row) : Row :=
  mkRow (input_file r) (output_file r) (input_file_display r) (output_file_display r) (input_size r) (output_size r) (input_size_display r) (output_size_display r) x (output_format r) (output_format_display r) (preview r) (separator r) (status r) (status_display r) (jpeg_quality r) (webp_quality r) (png_slow_optimization r).
Definition set_output_format (x : string) (r : Row) : Row :=
  mkRow (input_file r) (output_file r) (input_file_display r) (output_file_display r) (input_size r) (output_size r) (input_size_display r) (output_size_display r) (input_format r) x (output_format_display r) (preview r) (separator r) (status r) (status_display r) (jpeg_quality r) (webp_quality r) (png_slow_optimization r).
Definition set_output_format_display (x : string) (r : Row) : Row :=
  mkRow (input_file r) (output_file r) (input_file_display r) (output_file_display r) (input_size r) (output_size r) (input_size_display r) (output_size_display r) (input_format r) (output_format r) x (preview r) (separator r) (status r) (status_display r) (jpeg_quality r) (webp_quality r) (png_slow_optimization r).
Definition set_preview (x : option Pixbuf) (r : Row) : Row :=
  mkRow (input_file r) (output_file r) (input_file_display r) (output_file_display r) (input_size r) (output_size r) (input_size_display r) (output_size_display r) (input_format r) (output_format r) (output_format_display r) x (separator r) (status r) (status_display r) (jpeg_quality r) (webp_quality r) (png_slow_optimization r).
Definition set_separator (x : string) (r : Row) : Row :=
  mkRow (input_file r) (output_file r) (input_file_display r) (output_file_display r) (input_size r) (output_size r) (input_size_display r) (output_size_display r) (input_format r) (output_format r) (output_format_display r) (preview r) x (status r) (status_display r) (jpeg_quality r) (webp_quality r) (png_slow_optimization r).
Definition set_status (x : Z) (r : Row) : Row :=
  mkRow (input_file r) (output_file r) (input_file_display r) (output_file_display r) (input_size r) (output_size r) (input_size_display r) (output_size_display r) (input_format r) (output_format r) (output_format_display r) (preview r) (separator r) x (status_display r) (jpeg_quality r) (webp_quality r) (png_slow_optimization r).
Definition set_status_display (x : string) (r : Row) : Row :=
  mkRow (input_file r) (output_file r) (input_file_display r) (output_file_display r) (input_size r) (output_size r) (input_size_display r) (output_size_display r) (input_format r) (output_format r) (output_format_display r) (preview r) (separator r) (status r) x (jpeg_quality r) (webp_quality r) (png_slow_optimization r).
Definition set_jpeg_quality (x : Z) (r : Row) : Row :=
  mkRow (input_file r) (output_file r) (input_file_display r) (output_file_display r) (input_size r) (output_size r) (input_size_display r) (output_size_display r) (input_format r) (output_format r) (output_format_display r) (preview r) (separator r) (status r) (status_display r) x (webp_quality r) (png_slow_optimization r).
Definition set_webp_quality (x : Z) (r : Row) : Row :=
  mkRow (input_file r) (output_file r) (input_file_display r) (output_file_display r) (input_size r) (output_size r) (input_size_display r) (output_size_display r) (input_format r) (output_format r) (output_format_display r) (preview r) (separator r) (status r) (status_display r) (jpeg_quality r) x (png_slow_optimization r).
Definition set_png_slow_optimization (x : bool) (r : Row) : Row :=
  mkRow (input_file r) (output_file r) (input_file_display r) (output_file_display r) (input_size r) (output_size r) (input_size_display r) (output_size_display r) (input_format r) (output_format r) (output_format_display r) (preview r) (separator r) (status r) (status_display r) (jpeg_quality r) (webp_quality r) x.

(** Whether a column of type [t] takes the value [v]. *)
Definition has_type (v : Value) (t : FieldType) : bool :=
  match v, t with
  | VStr _, TStr | VInt _, TInt | VBool _, TBool => true
  | VPixbuf _, TPixbuf | VNone, TPixbuf => true
  | _, _ => false
  end.

(** [row[id] = value].  The columns of the list store are typed, by the
    types [FIELDS] declares: the model has the toolkit refuse a value
    of another type, and keeps Python's integers unbounded. *)
Definition set_column (id : nat) (v : Value) (r : Row) : option Row :=
  match id, v with
  | 0%nat, VStr x => Some (set_input_file x r)
  | 1%nat, VStr x => Some (set_output_file x r)
  | 2%nat, VStr x => Some (set_input_file_display x r)
  | 3%nat, VStr x => Some (set_output_file_display x r)
  | 4%nat, VInt x => Some (set_input_size x r)
  | 5%nat, VInt x => Some (set_output_size x r)
  | 6%nat, VStr x => Some (set_input_size_display x r)
  | 7%nat, VStr x => Some (set_output_size_display x r)
  | 8%nat, VStr x => Some (set_input_format x r)
  | 9%nat, VStr x => Some (set_output_format x r)
  | 10%nat, VStr x => Some (set_output_format_display x r)
  | 11%nat, VPixbuf x => Some (set_preview (Some x) r)
  | 11%nat, VNone => Some (set_preview None r)
  | 12%nat, VStr x => Some (set_separator x r)
  | 13%nat, VInt x => Some (set_status x r)
  | 14%nat, VStr x => Some (set_status_display x r)
  | 15%nat, VInt x => Some (set_jpeg_quality x r)
  | 16%nat, VInt x => Some (set_webp_quality x r)
  | 17%nat, VBool x => Some (set_png_slow_optimization x r)
  | _, _ => None
  end.

(** [**kwargs]: the keyword arguments of a call, in the order given. *)
Abbreviation kwargs := (list (string * Value)).

(** [key in kwargs] *)
Definition kw_in (key : string) (kw : kwargs) : bool :=
  existsb (String.eqb key) kw.*1.

(** The store object; its one attribute is [gtk_list_store], the list
    of rows.  An index is a row number; the [Gtk.TreeIter] that
    [append] obtains is the number of the row just added. *)
Abbreviation ImageStore := (list Row).

(** The row of defaults that [append] adds before it updates it. *)
Definition default_row : Row :=
  mkRow "" "" "" "" 0 0 "" "" "" "" "" None SEPARATOR 0 "" 90 90 false.

(** [row[id]] *)
Definition get_column (id : nat) (r : Row) : option Value :=
  match id with
  | 0%nat => Some (VStr (input_file r))
  | 1%nat => Some (VStr (output_file r))
  | 2%nat => Some (VStr (input_file_display r))
  | 3%nat => Some (VStr (output_file_display r))
  | 4%nat => Some (VInt (input_size r))
  | 5%nat => Some (VInt (output_size r))
  | 6%nat => Some (VStr (input_size_display r))
  | 7%nat => Some (VStr (output_size_display r))
  | 8%nat => Some (VStr (input_format r))
  | 9%nat => Some (VStr (output_format r))
  | 10%nat => Some (VStr (output_format_display r))
  | 11%nat =>
      Some (match preview r with Some p => VPixbuf p | None => VNone end)
  | 12%nat => Some (VStr (separator r))
  | 13%nat => Some (VInt (status r))
  | 14%nat => Some (VStr (status_display r))
  | 15%nat => Some (VInt (jpeg_quality r))
  | 16%nat => Some (VInt (webp_quality r))
  | 17%nat => Some (VBool (png_slow_optimization r))
  | _ => None
  end.

(** The dictionary that [get] builds from a row at lines 117-122: every
    field name with the value of its column. *)
Definition as_dict (r : Row) : list (string * Value) :=
  omap (fun '(field_name, field_info) =>
          pair field_name <$> get_column (f_id field_info) r)
       FIELDS.

(** The fields that a call of [update] with the arguments [kw]
    computes itself, after it has stored the arguments. *)
Definition recomputed (kw : kwargs) : list string :=
  (if kw_in "input_file" kw then ["input_file_display"] else [])
  ++ (if kw_in "output_format" kw || kw_in "jpeg_quality" kw
         || kw_in "webp_quality" kw || kw_in "png_slow_optimization" kw
      then ["output_format_display"; "output_file"] else [])
  ++ (if kw_in "output_file" kw || kw_in "output_format" kw
      then ["output_file_display"] else [])
  ++ (if kw_in "input_size" kw then ["input_size_display"] else [])
  ++ (if kw_in "output_size" kw then ["output_size_display"] else [])
  ++ (if kw_in "status" kw then ["status_display"] else []).

Section Methods.
Context `{Env}.

(** [self.gtk_list_store[index]] *)
Definition getitem (index : nat) : M ImageStore Row :=
  fun s =>
    match s !! index with
    | Some row => (Return row, s)
    | None => (Raise IndexError, s)
    end.

(** [self.gtk_list_store.get_iter(index)] *)
Definition get_iter (index : nat) : M ImageStore nat :=
  fun s =>
    if decide (index < length s)%nat then (Return index, s)
    else (Raise ValueError, s).

(** The [length] property. *)
Definition length : M ImageStore nat := gets (@List.length Row).

(** The row that [append] builds: a list of [None]s with every column
    then set to its default.  [blank_row] stands for the list of
    [None]s, all of which are overwritten. *)
Definition blank_row : Row :=
  mkRow "" "" "" "" 0 0 "" "" "" "" "" None "" 0 "" 0 0 false.

Definition new_row : option Row :=
  foldl (fun row '(_, field_info) =>
           row ≫= set_column (f_id field_info) (f_default field_info))
        (Some blank_row) FIELDS.

Definition check_fields (kw : kwargs) : M ImageStore unit :=
  for_each kw.*1 (fun key =>
    match assoc key FIELDS with
    | Some _ => ret tt
    | None => raise (KeyError ("Invalid field '" +:+ key +:+ "'"))
    end).

Definition _update_field (index : nat) (field_name : string)
    (value : Value) : M ImageStore unit :=
  row <- getitem index ;;
  field_info <- subscript (assoc field_name FIELDS) field_name ;;
  match set_column (f_id field_info) value row with
  | Some row' => modify (fun s => <[index := row']> s)
  | None => raise TypeError
  end.

Definition get (index : nat) : M ImageStore Row := getitem index.

Definition get_all : M ImageStore (list Row) :=
  n <- length ;;
  collect (seq 0 n) get.

Definition clear : M ImageStore unit := modify (fun _ => []).

Definition remove (iter_ : nat) : M ImageStore unit :=
  modify (fun s => delete iter_ s).

Definition remove_at_index (index : nat) : M ImageStore unit :=
  iter_ <- try_except (get_iter index)
             (fun error =>
                match error with
                | ValueError => raise IndexError
                | _ => raise error
                end) ;;
  remove iter_.

(** [update], lines 195-201: the name of the input file. *)
Definition update_input_file_display (index : nat) (kw : kwargs)
    : M ImageStore unit :=
  when (kw_in "input_file" kw)
    (row <- get index ;;
     _update_field index "input_file_display"
       (VStr (path_name (input_file row)))).

(** The dictionary [_FORMATS_EXTS] of lines 209-211: the first
    extension of every format.  A format with no extension makes
    the comprehension raise [IndexError]. *)
Definition _FORMATS_EXTS : outcome (gmap string string) :=
  if forallb (fun '(_, fmt) => bool_decide (exts fmt ≠ []))
             (map_to_list IMAGES_FORMATS)
  then Return (omap (fun fmt => head (exts fmt)) IMAGES_FORMATS)
  else Raise IndexError.

(** [update], lines 203-248: the text of the output format, then the
    extension of the output file. *)
Definition update_output_format (index : nat) (kw : kwargs)
    : M ImageStore unit :=
  when (kw_in "output_format" kw
        || kw_in "jpeg_quality" kw
        || kw_in "webp_quality" kw
        || kw_in "png_slow_optimization" kw)
    (formats_exts <- lift _FORMATS_EXTS ;;
     row <- get index ;;
     let fmt_id := output_format row in
     (if String.eqb fmt_id "jpeg" then
        fmt <- subscript (IMAGES_FORMATS !! "jpeg") "jpeg" ;;
        row <- get index ;;
        _update_field index "output_format_display"
          (VStr (display_name fmt +:+ " ("
                 +:+ pct_i (jpeg_quality row) +:+ " %)"))
      else if String.eqb fmt_id "webp" then
        fmt <- subscript (IMAGES_FORMATS !! "webp") "webp" ;;
        row <- get index ;;
        _update_field index "output_format_display"
          (VStr (display_name fmt +:+ " ("
                 +:+ pct_i (webp_quality row) +:+ " %)"))
      else if String.eqb fmt_id "png" then
        fmt <- subscript (IMAGES_FORMATS !! "png") "png" ;;
        row <- get index ;;
        _update_field index "output_format_display"
          (VStr (display_name fmt
                 +:+ (if png_slow_optimization row then " (slow)"
                      else "")))
      else
        fmt <- subscript (IMAGES_FORMATS !! fmt_id) fmt_id ;;
        _update_field index "output_format_display"
          (VStr (display_name fmt))) ;;
     row <- get index ;;
     ext <- subscript (formats_exts !! fmt_id) fmt_id ;;
     new_file <- lift (path_with_suffix (output_file row) ext) ;;
     _update_field index "output_file" (VStr new_file)).

(** [update], lines 250-260: the output file relative to the
    directory of the input file. *)
Definition update_output_file_display (index : nat) (kw : kwargs)
    : M ImageStore unit :=
  when (kw_in "output_file" kw || kw_in "output_format" kw)
    (row_o <- get index ;;
     row_i <- get index ;;
     _update_field index "output_file_display"
       (VStr (os_path_relpath (output_file row_o)
                (path_parent (input_file row_i))))).

(** [update], lines 262-269. *)
Definition update_input_size_display (index : nat) (kw : kwargs)
    : M ImageStore unit :=
  when (kw_in "input_size" kw)
    (row <- get index ;;
     _update_field index "input_size_display"
       (VStr (human_readable_file_size (input_size row)))).

(** The text of lines 275-283, from the two sizes read at lines
    272-273. *)
Definition output_size_text (in_size out_size : Z) : outcome string :=
  if 0 <? out_size then
    match truediv out_size in_size with
    | Return q =>
        let size_delta := (- (100 - q * 100))%float in
        Return (human_readable_file_size out_size +:+ " ("
                +:+ (if in_size <? out_size then "+" else "")
                +:+ format_string "%.1f" size_delta +:+ " %)")
    | Raise e => Raise e
    end
  else Return "".

(** [update], lines 271-289. *)
Definition update_output_size_display (index : nat) (kw : kwargs)
    : M ImageStore unit :=
  when (kw_in "output_size" kw)
    (row_i <- get index ;;
     row_o <- get index ;;
     text <- lift (output_size_text (input_size row_i)
                     (output_size row_o)) ;;
     _update_field index "output_size_display" (VStr text)).

(** The dictionary [_STATUS] of lines 292-297. *)
Definition _STATUS (st : Z) : option string :=
  match st with
  | 0 => Some ""
  | 1 => Some ("⏸️ " +:+ gettext "Pending")
  | 2 => Some ("🔄️ " +:+ gettext "In progress")
  | 3 => Some ("✅️ " +:+ gettext "Done")
  | _ => None
  end.

(** [update], lines 291-302. *)
Definition update_status_display (index : nat) (kw : kwargs)
    : M ImageStore unit :=
  when (kw_in "status" kw)
    (row <- get index ;;
     text <- subscript (_STATUS (status row)) (pct_i (status row)) ;;
     _update_field index "status_display" (VStr text)).

Definition update (index : nat) (kw : kwargs) : M ImageStore unit :=
  check_fields kw ;;
  for_each kw (fun '(key, value) => _update_field index key value) ;;
  update_input_file_display index kw ;;
  update_output_format index kw ;;
  update_output_file_display index kw ;;
  update_input_size_display index kw ;;
  update_output_size_display index kw ;;
  update_status_display index kw.

Definition append (kw : kwargs) : M ImageStore unit :=
  check_fields kw ;;
  row <- lift (match new_row with
               | Some row => Return row
               | None => Raise TypeError
               end) ;;
  iter_ <- (fun s => (Return (List.length s), s ++ [row])) ;;
  update iter_ kw.

End Methods.

End ImageStore.

(** ** The application controller ([application.py]) *)

Module Application.
Import ImageStore.

Definition _IMAGE_FORMATS : list (string * string) :=
  [(".jpg", "JPEG"); (".jpeg", "JPEG"); (".png", "PNG")].

(** [STATE_MANAGE_IMAGES = "manage"], [STATE_OPTIMIZE = "optimize"] *)
Inductive State : Type := STATE_MANAGE_IMAGES | STATE_OPTIMIZE.

#[export] Instance State_eq_dec : EqDecision State.
Proof. solve_decision. Defined.

(** What the controller does to its [MainWindow]. *)
Record MainWindow := {
  window_state : option State;
  visible : bool;
}.

(** A [concurrent.futures.ThreadPoolExecutor]. *)
Record ThreadPoolExecutor := {
  max_workers : nat;
  shutdown_called : bool;
}.

Inductive OptionValue : Type :=
| OStr (s : string)
| OFloat (x : float).

(** One [executor.submit(yoga.image.optimize, input, output, options)]:
    the arguments handed to the optimizer. *)
Record Call := {
  arg_input_file : string;
  arg_output_file : string;
  arg_options : list (string * OptionValue);
}.

(** The future of a submitted call, with whether [cancel()] was called
    on it. *)
Record Future := {
  call : Call;
  cancel_called : bool;
}.

(** The application object.  [timeout_sources] is the part of the GLib
    main loop the controller writes to: the intervals, in seconds, of
    the pending timeouts, whose callback is always
    [_update_optimization_status]. *)
Record Application := mkApp {
  current_state : option State;
  image_store : ImageStore;
  _main_window : option MainWindow;
  _executor : option ThreadPoolExecutor;
  _futures : list Future;
  timeout_sources : list float;
}.

Definition set_current_state (x : option State) (a : Application) :=
  mkApp x (image_store a) (_main_window a) (_executor a) (_futures a)
    (timeout_sources a).
Definition set_image_store (x : ImageStore) (a : Application) :=
  mkApp (current_state a) x (_main_window a) (_executor a) (_futures a)
    (timeout_sources a).
Definition set_main_window (x : option MainWindow) (a : Application) :=
  mkApp (current_state a) (image_store a) x (_executor a) (_futures a)
    (timeout_sources a).
Definition set_executor (x : option ThreadPoolExecutor) (a : Application) :=
  mkApp (current_state a) (image_store a) (_main_window a) x (_futures a)
    (timeout_sources a).
Definition set_futures (x : list Future) (a : Application) :=
  mkApp (current_state a) (image_store a) (_main_window a) (_executor a) x
    (timeout_sources a).
Definition set_timeout_sources (x : list float) (a : Application) :=
  mkApp (current_state a) (image_store a) (_main_window a) (_executor a)
    (_futures a) x.

(** What a call observes of the world outside the process state: the
    thread pool's progress on the future at each position of
    [_futures], and the file system. *)
Record World := {
  running : nat -> bool;
  done : nat -> bool;
  st_size : string -> outcome Z;
  resolve : string -> string;
}.

(** The interval passed to [GLib.timeout_add_seconds]: [0.1]. *)
Definition POLL_INTERVAL : float := 0x1.999999999999ap-4%float.

Section Methods.
Context `{Env}.

Definition __init__ : Application :=
  mkApp None [] None None [] [].

(** A method of [self.image_store] called on the application. *)
Definition on_store {A} (m : M ImageStore A) : M Application A :=
  fun a =>
    let '(o, s) := m (image_store a) in (o, set_image_store s a).

Definition switch_state (state : State) : M Application unit :=
  modify (set_current_state (Some state)) ;;
  w <- gets _main_window ;;
  match w with
  | None => raise AttributeError
  | Some w =>
      modify (set_main_window
                (Some {| window_state := Some state;
                         visible := visible w |}))
  end.

Definition do_activate : M Application unit :=
  w <- gets _main_window ;;
  match w with
  | None =>
      modify (set_main_window
                (Some {| window_state := None; visible := false |})) ;;
      switch_state STATE_MANAGE_IMAGES
  | Some _ => ret tt
  end ;;
  w <- gets _main_window ;;
  match w with
  | None => raise AttributeError
  | Some w =>
      modify (set_main_window
                (Some {| window_state := window_state w;
                         visible := true |}))
  end.

Definition add_image (world : World) (path : string)
    : M Application unit :=
  let input_path := resolve world path in
  input_size <- lift (st_size world input_path) ;;
  let ext := lower (path_suffix input_path) in
  input_format <- subscript (assoc ext _IMAGE_FORMATS) ext ;;
  output_format <- subscript (assoc ext _IMAGE_FORMATS) ext ;;
  on_store (append
    [("input_file", VStr input_path);
     ("output_file", VStr (add_suffix_to_filename input_path));
     ("input_size", VInt input_size);
     ("output_size", VInt 0);
     ("input_format", VStr input_format);
     ("output_format", VStr output_format);
     ("preview", VPixbuf (preview_gdk_pixbuf_from_path input_path))]).

Definition clear_images : M Application unit := on_store clear.

(** [self._executor.submit(yoga.image.optimize, ...)] *)
Definition submit (c : Call) : M Application Future :=
  ex <- gets _executor ;;
  match ex with
  | None => raise AttributeError
  | Some ex =>
      if shutdown_called ex then raise RuntimeError
      else ret {| call := c; cancel_called := false |}
  end.

(** [future.cancel()] *)
Definition cancel (f : Future) : Future :=
  {| call := call f; cancel_called := true |}.

Definition stop_optimization : M Application unit :=
  st <- gets current_state ;;
  if bool_decide (st ≠ Some STATE_OPTIMIZE) then ret tt
  else
    ex <- gets _executor ;;
    match ex with
    | None => raise AttributeError
    | Some ex =>
        modify (set_executor
                  (Some {| max_workers := max_workers ex;
                           shutdown_called := true |}))
    end ;;
    modify (fun a => set_futures (map cancel (_futures a)) a) ;;
    switch_state STATE_MANAGE_IMAGES.

(** The body of the loop of [_update_optimization_status]: the
    future and the row at position [i]. *)
Definition poll_future (world : World) (i : nat) (is_running : bool)
    : M Application bool :=
  if running world i then
    on_store (update i [("status", VInt STATUS_IN_PROGRESS);
                        ("output_size", VInt 0)]) ;;
    ret true
  else if done world i then
    image_data <- on_store (get i) ;;
    output_size <- lift (st_size world (output_file image_data)) ;;
    on_store (update i [("status", VInt STATUS_DONE);
                        ("output_size", VInt output_size)]) ;;
    ret is_running
  else
    on_store (update i [("status", VInt STATUS_PENDING);
                        ("output_size", VInt 0)]) ;;
    ret is_running.

Definition _update_optimization_status (world : World)
    : M Application unit :=
  st <- gets current_state ;;
  if bool_decide (st ≠ Some STATE_OPTIMIZE) then ret tt
  else
    n <- gets (fun a => List.length (_futures a)) ;;
    is_running <- for_acc (seq 0 n) false (poll_future world) ;;
    if is_running then
      modify (fun a =>
                set_timeout_sources (timeout_sources a ++ [POLL_INTERVAL]) a)
    else stop_optimization.

Definition optimize (world : World) : M Application unit :=
  switch_state STATE_OPTIMIZE ;;
  modify (set_executor
            (Some {| max_workers := 2; shutdown_called := false |})) ;;
  modify (set_futures []) ;;
  rows <- on_store get_all ;;
  for_each rows (fun row =>
    quality <- lift (truediv (jpeg_quality row) 100) ;;
    future <- submit
      {| arg_input_file := input_file row;
         arg_output_file := output_file row;
         arg_options :=
           [("output_format", OStr (lower (output_format row)));
            ("jpeg_quality", OFloat quality)] |} ;;
    modify (fun a => set_futures (_futures a ++ [future]) a)) ;;
  _update_optimization_status world.

Definition do_open (world : World) (files : list string)
    : M Application unit :=
  do_activate ;;
  st <- gets current_state ;;
  if bool_decide (st = Some STATE_OPTIMIZE) then ret tt
  else for_each files (add_image world).

(** [quit]: what it does before handing over to the toolkit. *)
Definition quit : M Application unit := stop_optimization.

(** The main loop fires a pending timeout: the source is dropped, as
    its callback returns [None], and the callback runs. *)
Definition timeout_fired (world : World) : M Application unit :=
  modify (fun a => set_timeout_sources (tail (timeout_sources a)) a) ;;
  _update_optimization_status world.

(** What reaches the application: the actions registered in
    [do_startup], the two entry points the toolkit calls, and the
    timeout set by [_update_optimization_status]. *)
Inductive Event : Type :=
| Activate
| Open (files : list string)
| QuitAction
| OptimizeAction
| StopOptimizationAction
| AddImageAction (path : string)
| ClearImagesAction
| Timeout.

Definition handle (world : World) (ev : Event) : M Application unit :=
  match ev with
  | Activate => do_activate
  | Open files => do_open world files
  | QuitAction => quit
  | OptimizeAction => optimize world
  | StopOptimizationAction => stop_optimization
  | AddImageAction path => add_image world path
  | ClearImagesAction => clear_images
  | Timeout => timeout_fired world
  end.

(** The arguments [optimize] submits for a row. *)
Definition submitted_options (row : Row) : list (string * OptionValue) :=
  [("output_format", OStr (lower (output_format row)));
   ("jpeg_quality",
    OFloat (float_of_int (jpeg_quality row) / float_of_int 100)%float)].

Definition submitted_call (row : Row) : Call :=
  {| arg_input_file := input_file row;
     arg_output_file := output_file row;
     arg_options := submitted_options row |}.

(** The status [_update_optimization_status] gives to the row of the
    future at position [i]. *)
Definition future_status (world : World) (i : nat) : Z :=
  if running world i then STATUS_IN_PROGRESS
  else if done world i then STATUS_DONE
  else STATUS_PENDING.

(** The calls that were submitted, in order. *)
Definition submitted (a : Application) : list Call :=
  map call (_futures a).

(** The size of the thread pool, if there is one. *)
Definition workers (a : Application) : option nat :=
  max_workers <$> _executor a.

(** The application as [optimize] leaves it when it starts polling:
    a fresh pool and one pending future per row. *)
Definition submitted_all (w : MainWindow) (a : Application)
    : Application :=
  mkApp (Some STATE_OPTIMIZE) (image_store a)
    (Some {| window_state := Some STATE_OPTIMIZE;
             visible := visible w |})
    (Some {| max_workers := 2; shutdown_called := false |})
    (map (fun row => {| call := submitted_call row;
                        cancel_called := false |})
         (image_store a))
    (timeout_sources a).

(** The application once [stop_optimization] has run in the
    [STATE_OPTIMIZE] state, with window [w] and executor [ex]. *)
Definition stopped (w : MainWindow) (ex : ThreadPoolExecutor)
    (a : Application) : Application :=
  mkApp (Some STATE_MANAGE_IMAGES) (image_store a)
    (Some {| window_state := Some STATE_MANAGE_IMAGES;
             visible := visible w |})
    (Some {| max_workers := max_workers ex; shutdown_called := true |})
    (map cancel (_futures a)) (timeout_sources a).

End Methods.

End Application.

(** ** An environment to run the model on

    POSIX paths without [.] or [..] components, the C locale, no
    translation, and three output formats. *)

Module Demo.
Import ImageStore Application.

(** The part of [s] before and after its last [c], if [c] occurs. *)
Fixpoint rsplit (c : ascii) (s : string) : option (string * string) :=
  match s with
  | EmptyString => None
  | String a s' =>
      match rsplit c s' with
      | Some (l, r) => Some (String a l, r)
      | None => if Ascii.eqb a c then Some (EmptyString, s') else None
      end
  end.

Definition name (p : string) : string :=
  match rsplit "/" p with
  | Some (_, n) => n
  | None => p
  end.

Definition parent (p : string) : string :=
  match rsplit "/" p with
  | Some (d, _) => if String.eqb d "" then "/" else d
  | None => "."
  end.

Definition suffix (p : string) : string :=
  match rsplit "." (name p) with
  | Some (stem, e) => if String.eqb stem "" then "" else "." +:+ e
  | None => ""
  end.

Definition with_suffix (p ext : string) : outcome string :=
  if String.eqb (name p) "" then Raise ValueError
  else Return (String.substring 0 (String.length p - String.length (suffix p)) p
               +:+ ext).

Definition relpath (p start : string) : string :=
  let dir := start +:+ "/" in
  if String.prefix dir p
  then String.substring (String.length dir)
         (String.length p - String.length dir) p
  else p.

(** ["%.1f" % x]: [x] rounded to one decimal, halves to even. *)
Definition tenths (m : positive) (e : Z) : Z :=
  let n := Z.pos m * 10 in
  if 0 <=? e then n * 2 ^ e
  else
    let d := 2 ^ (- e) in
    let q := n / d in
    let r := n mod d in
    if (d <? 2 * r) || ((d =? 2 * r) && Z.odd q) then q + 1 else q.

Definition fixed1 (x : float) : string :=
  match Prim2SF x with
  | S754_zero s => if s then "-0.0" else "0.0"
  | S754_infinity s => if s then "-inf" else "inf"
  | S754_nan => "nan"
  | S754_finite s m e =>
      let t := tenths m e in
      (if s then "-" else "") +:+ pct_i (t / 10) +:+ "." +:+ pct_i (t mod 10)
  end.

Definition formats : gmap string ImageFormat :=
  list_to_map
    [("jpeg", {| display_name := "JPEG"; exts := [".jpg"; ".jpeg"] |});
     ("png", {| display_name := "PNG"; exts := [".png"] |});
     ("webp", {| display_name := "WebP"; exts := [".webp"] |})].

#[export] Instance env : Env := {|
  IMAGES_FORMATS := formats;
  gettext := fun s => s;
  format_string := fun fmt x => if String.eqb fmt "%.1f" then fixed1 x else fmt;
  human_readable_file_size := fun n => pct_i n +:+ " B";
  add_suffix_to_filename := fun p =>
    String.substring 0 (String.length p - String.length (suffix p)) p
    +:+ ".opti" +:+ suffix p;
  preview_gdk_pixbuf_from_path := fun _ => 0%N;
  path_name := name;
  path_parent := parent;
  path_suffix := suffix;
  path_with_suffix := with_suffix;
  os_path_relpath := relpath;
|}.

(** The row of [append()]. *)
Definition fresh : Row :=
  mkRow "" "" "" "" 0 0 "" "" "" "" "" None SEPARATOR 0 "" 90 90 false.

(** The arguments with which an image is added, and the row they give. *)
Definition photo_kw : kwargs :=
  [("input_file", VStr "/tmp/a.jpg");
   ("output_file", VStr "/tmp/a.opti.jpg");
   ("input_size", VInt 100);
   ("output_size", VInt 0);
   ("input_format", VStr "jpeg");
   ("output_format", VStr "jpeg")].

Definition photo : Row :=
  mkRow "/tmp/a.jpg" "/tmp/a.opti.jpg" "a.jpg" "a.opti.jpg" 100 0
    "100 B" "" "jpeg" "jpeg" "JPEG (90 %)" None SEPARATOR 0 "" 90 90
    false.

(** An image of 100 bytes with an output of 50, then a new input size. *)
Definition sized_kw : kwargs :=
  [("input_file", VStr "/tmp/a.jpg");
   ("output_file", VStr "/tmp/a.opti.jpg");
   ("input_size", VInt 100);
   ("output_size", VInt 50);
   ("output_format", VStr "jpeg")].

(** A world in which the future at position 0 is running and the others
    have finished, and every file has 40 bytes. *)
Definition world : World := {|
  running := fun i => bool_decide (i = 0%nat);
  done := fun i => true;
  st_size := fun _ => Return 40;
  resolve := fun p => p;
|}.

(** A world in which every future has finished. *)
Definition world_done : World := {|
  running := fun _ => false;
  done := fun _ => true;
  st_size := fun _ => Return 40;
  resolve := fun p => p;
|}.

(** A row set to PNG with the slow optimization, and WebP quality 50. *)
Definition slow_png : Row :=
  mkRow "/tmp/b.png" "/tmp/b.opti.png" "b.png" "b.opti.png" 100 0
    "100 B" "" "png" "png" "PNG (slow)" None SEPARATOR 0 "" 90 50 true.

Definition batch : ImageStore := [photo; slow_png].

Definition window : MainWindow :=
  {| window_state := Some STATE_MANAGE_IMAGES; visible := true |}.

Definition busy_window : MainWindow :=
  {| window_state := Some STATE_OPTIMIZE; visible := true |}.

(** The application with its window up and the given rows. *)
Definition managing (rows : ImageStore) : Application :=
  mkApp (Some STATE_MANAGE_IMAGES) rows (Some window) None [] [].

(** The application in the middle of a batch over the given rows. *)
Definition optimizing (rows : ImageStore) : Application :=
  submitted_all window (managing rows).

(** The same environment with the formats under the names that
    [application._IMAGE_FORMATS] gives. *)
Definition formats_upper : gmap string ImageFormat :=
  list_to_map
    [("JPEG", {| display_name := "JPEG"; exts := [".jpg"; ".jpeg"] |});
     ("PNG", {| display_name := "PNG"; exts := [".png"] |})].

Definition env_upper : Env := {|
  IMAGES_FORMATS := formats_upper;
  gettext := @gettext env;
  format_string := @format_string env;
  human_readable_file_size := @human_readable_file_size env;
  add_suffix_to_filename := @add_suffix_to_filename env;
  preview_gdk_pixbuf_from_path := @preview_gdk_pixbuf_from_path env;
  path_name := name;
  path_parent := parent;
  path_suffix := suffix;
  path_with_suffix := with_suffix;
  os_path_relpath := relpath;
|}.

(** A world in which every future has finished and no file exists. *)
Definition world_missing : World := {|
  running := fun _ => false;
  done := fun _ => true;
  st_size := fun _ => Raise OSError;
  resolve := fun p => p;
|}.

End Demo.

(** ** The methods of the store, seen from one row

    Every step of [update] reads and writes the row at [index] only.
    [OnRow] restates the steps as programs over that row alone; they are
    shown below to be what the methods do to the row they address. *)

Module OnRow.
Import ImageStore.

Section Steps.
Context `{Env}.

Definition read : M Row Row := gets (fun row => row).

Definition write (field_name : string) (value : Value) : M Row unit :=
  field_info <- subscript (assoc field_name FIELDS) field_name ;;
  fun row =>
    match set_column (f_id field_info) value row with
    | Some row' => (Return tt, row')
    | None => (Raise TypeError, row)
    end.

Definition input_file_display_step (kw : kwargs) : M Row unit :=
  when (kw_in "input_file" kw)
    (row <- read ;;
     write "input_file_display" (VStr (path_name (input_file row)))).

Definition output_format_step (kw : kwargs) : M Row unit :=
  when (kw_in "output_format" kw
        || kw_in "jpeg_quality" kw
        || kw_in "webp_quality" kw
        || kw_in "png_slow_optimization" kw)
    (formats_exts <- lift _FORMATS_EXTS ;;
     row <- read ;;
     let fmt_id := output_format row in
     (if String.eqb fmt_id "jpeg" then
        fmt <- subscript (IMAGES_FORMATS !! "jpeg") "jpeg" ;;
        row <- read ;;
        write "output_format_display"
          (VStr (display_name fmt +:+ " ("
                 +:+ pct_i (jpeg_quality row) +:+ " %)"))
      else if String.eqb fmt_id "webp" then
        fmt <- subscript (IMAGES_FORMATS !! "webp") "webp" ;;
        row <- read ;;
        write "output_format_display"
          (VStr (display_name fmt +:+ " ("
                 +:+ pct_i (webp_quality row) +:+ " %)"))
      else if String.eqb fmt_id "png" then
        fmt <- subscript (IMAGES_FORMATS !! "png") "png" ;;
        row <- read ;;
        write "output_format_display"
          (VStr (display_name fmt
                 +:+ (if png_slow_optimization row then " (slow)"
                      else "")))
      else
        fmt <- subscript (IMAGES_FORMATS !! fmt_id) fmt_id ;;
        write "output_format_display" (VStr (display_name fmt))) ;;
     row <- read ;;
     ext <- subscript (formats_exts !! fmt_id) fmt_id ;;
     new_file <- lift (path_with_suffix (output_file row) ext) ;;
     write "output_file" (VStr new_file)).

Definition output_file_display_step (kw : kwargs) : M Row unit :=
  when (kw_in "output_file" kw || kw_in "output_format" kw)
    (row_o <- read ;;
     row_i <- read ;;
     write "output_file_display"
       (VStr (os_path_relpath (output_file row_o)
                (path_parent (input_file row_i))))).

Definition input_size_display_step (kw : kwargs) : M Row unit :=
  when (kw_in "input_size" kw)
    (row <- read ;;
     write "input_size_display"
       (VStr (human_readable_file_size (input_size row)))).

Definition output_size_display_step (kw : kwargs) : M Row unit :=
  when (kw_in "output_size" kw)
    (row_i <- read ;;
     row_o <- read ;;
     text <- lift (output_size_text (input_size row_i)
                     (output_size row_o)) ;;
     write "output_size_display" (VStr text)).

Definition status_display_step (kw : kwargs) : M Row unit :=
  when (kw_in "status" kw)
    (row <- read ;;
     text <- subscript (_STATUS (status row)) (pct_i (status row)) ;;
     write "status_display" (VStr text)).

(** What [update] does after the names have been checked. *)
Definition update_steps (kw : kwargs) : M Row unit :=
  for_each kw (fun '(key, value) => write key value) ;;
  input_file_display_step kw ;;
  output_format_step kw ;;
  output_file_display_step kw ;;
  input_size_display_step kw ;;
  output_size_display_step kw ;;
  status_display_step kw.

(** The text shown for an output format: the display name, with the
    quality for JPEG and WebP and a marker for a slow PNG. *)
Definition format_text (fmt_id : string) (fmt : ImageFormat) (row : Row)
    : string :=
  if String.eqb fmt_id "jpeg" then
    display_name fmt +:+ " (" +:+ pct_i (jpeg_quality row) +:+ " %)"
  else if String.eqb fmt_id "webp" then
    display_name fmt +:+ " (" +:+ pct_i (webp_quality row) +:+ " %)"
  else if String.eqb fmt_id "png" then
    display_name fmt
    +:+ (if png_slow_optimization row then " (slow)" else "")
  else display_name fmt.

(** [output_format_display] as a function of the base fields. *)
Definition output_format_text (row : Row) : outcome string :=
  match IMAGES_FORMATS !! output_format row with
  | Some fmt => Return (format_text (output_format row) fmt row)
  | None => Raise (KeyError (output_format row))
  end.

(** Every display field of [row] is what its base fields give. *)
Definition display_fields_current (row : Row) : Prop :=
  input_file_display row = path_name (input_file row) /\
  output_file_display row
  = os_path_relpath (output_file row) (path_parent (input_file row)) /\
  input_size_display row = human_readable_file_size (input_size row) /\
  Return (output_size_display row)
  = output_size_text (input_size row) (output_size row) /\
  Return (output_format_display row) = output_format_text row /\
  Some (status_display row) = _STATUS (status row).

(** Whether [output_size_display] is what the two sizes give. *)
Definition output_size_display_current (row : Row) : bool :=
  match output_size_text (input_size row) (output_size row) with
  | Return text => String.eqb (output_size_display row) text
  | Raise _ => false
  end.

(** The display fields of [row] that the arguments [kw] of a call are
    a trigger for are what the base fields give. *)
Definition display_fields_refreshed (kw : kwargs) (row : Row) : Prop :=
  (kw_in "input_file" kw = true ->
   input_file_display row = path_name (input_file row)) /\
  (kw_in "output_format" kw || kw_in "jpeg_quality" kw
   || kw_in "webp_quality" kw || kw_in "png_slow_optimization" kw = true ->
   Return (output_format_display row) = output_format_text row) /\
  (kw_in "output_file" kw || kw_in "output_format" kw = true ->
   output_file_display row
   = os_path_relpath (output_file row) (path_parent (input_file row))) /\
  (kw_in "input_size" kw = true ->
   input_size_display row = human_readable_file_size (input_size row)) /\
  (kw_in "output_size" kw = true ->
   Return (output_size_display row)
   = output_size_text (input_size row) (output_size row)) /\
  (kw_in "status" kw = true ->
   Some (status_display row) = _STATUS (status row)).

(** The calls that change rows. *)
Inductive Mutation : Type :=
| Append (kw : kwargs)
| Update (index : nat) (kw : kwargs).

Definition mutate (m : Mutation) : M ImageStore unit :=
  match m with
  | Append kw => append kw
  | Update index kw => update index kw
  end.

(** The row a mutation addresses, and the arguments it is given. *)
Definition target (m : Mutation) (s : ImageStore) : nat :=
  match m with
  | Append _ => List.length s
  | Update index _ => index
  end.

Definition arguments (m : Mutation) : kwargs :=
  match m with
  | Append kw => kw
  | Update _ kw => kw
  end.

(** [m], on a store, does to row [index] what [p] does to a row. *)
Definition tracks {A} (index : nat) (m : M ImageStore A) (p : M Row A)
    : Prop :=
  forall s row,
    s !! index = Some row ->
    m s = let '(o, row') := p row in (o, <[index := row']> s).

(** The first name among the keyword arguments that is not a field. *)
Definition invalid_field (kw : kwargs) : option string :=
  List.find (fun key => match assoc key FIELDS with
                        | Some _ => false
                        | None => true
                        end) kw.*1.

Definition invalid_field_error (key : string) : exn :=
  KeyError ("Invalid field '" +:+ key +:+ "'").

End Steps.
End OnRow.

(** * Properties *)

Import ImageStore Application.

(** ** The monad *)

Section MonadFacts.
Context {S : Type}.

Lemma bind_Return {A B} (m : M S A) (k : A -> M S B) s a s' :
  m s = (Return a, s') -> bind m k s = k a s'.
Proof. unfold bind. by intros ->. Qed.

Lemma bind_Raise {A B} (m : M S A) (k : A -> M S B) s e s' :
  m s = (Raise e, s') -> bind m k s = (Raise e, s').
Proof. unfold bind. by intros ->. Qed.

(** A [bind] that returns went through both halves. *)
Lemma bind_inv {A B} (m : M S A) (k : A -> M S B) s b s'' :
  bind m k s = (Return b, s'') ->
  exists a s', m s = (Return a, s') /\ k a s' = (Return b, s'').
Proof.
  unfold bind. destruct (m s) as [[a|e] s']; [eauto | discriminate].
Qed.

End MonadFacts.

(** ** One row at a time *)

Section RowView.
Context `{Env}.
Import OnRow.

Lemma tracks_ret {A} i (a : A) : tracks i (ret a) (ret a).
Proof. intros s row Hrow. cbn. by rewrite list_insert_id. Qed.

Lemma tracks_raise {A} i e : tracks (A:=A) i (raise e) (raise e).
Proof. intros s row Hrow. cbn. by rewrite list_insert_id. Qed.

Lemma tracks_lift {A} i (o : outcome A) : tracks i (lift o) (lift o).
Proof. intros s row Hrow. cbn. by rewrite list_insert_id. Qed.

Lemma tracks_subscript {A} i (d : option A) key :
  tracks i (subscript d key) (subscript d key).
Proof. destruct d; [apply tracks_ret | apply tracks_raise]. Qed.

Lemma tracks_bind {A B} i (m : M ImageStore A) p
    (k : A -> M ImageStore B) q :
  tracks i m p -> (forall a, tracks i (k a) (q a)) ->
  tracks i (bind m k) (bind p q).
Proof.
  intros Hm Hk s row Hrow. unfold bind. rewrite (Hm s row Hrow).
  destruct (p row) as [[a|e] row1]; [|done].
  rewrite (Hk a (<[i:=row1]> s) row1).
  - destruct (q a row1) as [o row2]. by rewrite list_insert_insert_eq.
  - apply list_lookup_insert_eq. by eapply lookup_lt_Some.
Qed.

Lemma tracks_when i c m p :
  tracks i m p -> tracks i (when c m) (when c p).
Proof. destruct c; [done | intros _; apply tracks_ret]. Qed.

Lemma tracks_for_each {A} i (l : list A) body body' :
  (forall x, tracks i (body x) (body' x)) ->
  tracks i (for_each l body) (for_each l body').
Proof.
  intros Hbody. induction l as [|x l IH]; cbn [for_each].
  - apply tracks_ret.
  - apply tracks_bind; [apply Hbody | intros _; apply IH].
Qed.

Lemma tracks_get i : tracks i (get i) read.
Proof.
  intros s row Hrow. unfold get, getitem. rewrite Hrow. cbn.
  by rewrite list_insert_id.
Qed.

Lemma tracks_update_field i field_name value :
  tracks i (_update_field i field_name value) (write field_name value).
Proof.
  intros s row Hrow. unfold _update_field, write, bind, getitem.
  rewrite Hrow. destruct (assoc field_name FIELDS) as [info|]; cbn.
  - destruct (set_column (f_id info) value row); cbn; [done|].
    by rewrite list_insert_id.
  - by rewrite list_insert_id.
Qed.

Create HintDb tracks discriminated.
Hint Resolve tracks_ret tracks_raise tracks_lift tracks_subscript
  tracks_when tracks_get tracks_update_field : tracks.

Ltac tracks_step :=
  first
    [ apply tracks_bind; [|intros ?]
    | apply tracks_when
    | apply tracks_for_each; intros []
    | match goal with
      | |- tracks _ (if ?c then _ else _) _ => destruct c
      | |- tracks _ (let x := _ in _) _ => cbv zeta
      end
    | solve [auto with tracks] ].

Ltac tracks_all := repeat tracks_step.

Lemma tracks_update_steps i kw :
  tracks i
    (for_each kw (fun '(key, value) => _update_field i key value) ;;
     update_input_file_display i kw ;;
     update_output_format i kw ;;
     update_output_file_display i kw ;;
     update_input_size_display i kw ;;
     update_output_size_display i kw ;;
     update_status_display i kw)
    (update_steps kw).
Proof.
  unfold update_steps, update_input_file_display, update_output_format,
    update_output_file_display, update_input_size_display,
    update_output_size_display, update_status_display,
    input_file_display_step, output_format_step, output_file_display_step,
    input_size_display_step, output_size_display_step, status_display_step.
  tracks_all.
Qed.

Lemma check_fields_run kw s :
  check_fields kw s
  = (match invalid_field kw with
     | Some key => Raise (invalid_field_error key)
     | None => Return tt
     end, s).
Proof.
  unfold check_fields, invalid_field.
  induction kw.*1 as [|key keys IH]; [done|].
  cbn [for_each List.find]. unfold bind.
  destruct (assoc key FIELDS); cbn; [apply IH | done].
Qed.

(** [update] on a row that exists: the names are checked, then the
    steps run on that row. *)
Lemma update_at i kw s row :
  s !! i = Some row ->
  update i kw s
  = match invalid_field kw with
    | Some key => (Raise (invalid_field_error key), s)
    | None => let '(o, row') := update_steps kw row in
              (o, <[i := row']> s)
    end.
Proof.
  intros Hrow. unfold update.
  unfold bind at 1. rewrite check_fields_run.
  destruct (invalid_field kw); [done|].
  by apply tracks_update_steps.
Qed.

End RowView.

(** ** The table of fields and the rows *)

Section Fields.
Context `{Env}.

Lemma assoc_In {A} key (l : list (string * A)) a :
  assoc key l = Some a -> In (key, a) l.
Proof.
  induction l as [|[k b] l IH]; cbn; [done|].
  destruct (String.eqb_spec key k) as [->|_].
  - intros [= ->]. by left.
  - intros Hl. right. by apply IH.
Qed.

(** A column takes exactly the values of the type [FIELDS] gives it. *)
Lemma set_column_typed name info v row :
  assoc name FIELDS = Some info ->
  is_Some (set_column (f_id info) v row) <-> has_type v (f_type info) = true.
Proof.
  intros Hinfo. apply assoc_In in Hinfo. cbn in Hinfo.
  repeat (destruct Hinfo as [[= <- <-]|Hinfo]; [
    destruct v; cbn; split;
      solve [ eauto | intros; discriminate | by intros [? ?] ] |]).
  destruct Hinfo.
Qed.

(** The row [append] starts from holds the defaults of [FIELDS]. *)
Lemma new_row_defaults :
  new_row
  = Some (mkRow "" "" "" "" 0 0 "" "" "" "" "" None SEPARATOR 0 "" 90 90
            false).
Proof. reflexivity. Qed.

End Fields.

(** The examples of the docstrings of [image_store.py]. *)

Example doctest_append :
  (append (H:=Demo.env)
     [("input_file", VStr "/tmp/foobar.png");
      ("output_file", VStr "/tmp/foobar.opti.png")] ;;
   ImageStore.length) []
  = (Return 1%nat,
     [mkRow "/tmp/foobar.png" "/tmp/foobar.opti.png" "foobar.png"
        "foobar.opti.png" 0 0 "" "" "" "" "" None SEPARATOR 0 "" 90 90
        false]) /\
  (append (H:=Demo.env) [("foo", VStr "bar")] []).1
  = Raise (KeyError "Invalid field 'foo'").
Proof. split; vm_compute; reflexivity. Qed.

Example doctest_clear :
  (append (H:=Demo.env) [] ;; clear ;; ImageStore.length) [] = (Return 0%nat, []).
Proof. vm_compute. reflexivity. Qed.

Example doctest_get :
  (append (H:=Demo.env) [] ;; get 1) [] = (Raise IndexError, [Demo.fresh]) /\
  (append (H:=Demo.env) [] ;; get 0) [] = (Return Demo.fresh, [Demo.fresh]).
Proof. split; vm_compute; reflexivity. Qed.

Example doctest_remove_at_index :
  (append (H:=Demo.env) [] ;; remove_at_index 0 ;; ImageStore.length) []
  = (Return 0%nat, []) /\
  (append (H:=Demo.env) [] ;; remove_at_index 0 ;; remove_at_index 0) []
  = (Raise IndexError, []).
Proof. split; vm_compute; reflexivity. Qed.

Example doctest_update :
  (append (H:=Demo.env) [("output_file", VStr "aaa.png")] ;;
   row <- get 0 ;; ret (output_file row)) [] = 
  (Return "aaa.png", [set_output_file_display "aaa.png"
                        (set_output_file "aaa.png" Demo.fresh)]) /\
  ((append (H:=Demo.env) [("output_file", VStr "aaa.png")] ;;
    update (H:=Demo.env) 0 [("output_file", VStr "bbb.png")] ;;
    row <- get 0 ;; ret (output_file row)) []).1
  = Return "bbb.png" /\
  ((append (H:=Demo.env) [("output_file", VStr "aaa.png")] ;;
    update (H:=Demo.env) 0 [("foo", VStr "bar")]) []).1
  = Raise (KeyError "Invalid field 'foo'") /\
  ((append (H:=Demo.env) [("output_file", VStr "aaa.png")] ;;
    update (H:=Demo.env) 1 [("output_file", VStr "ccc.png")]) []).1
  = Raise IndexError.
Proof. repeat split; vm_compute; reflexivity. Qed.

(** ** Names and indices that the store refuses *)

Section Refusals.
Context `{Env}.
Import OnRow.

Lemma invalid_field_Some kw key :
  invalid_field kw = Some key ->
  key ∈ kw.*1 /\ assoc key FIELDS = None.
Proof.
  unfold invalid_field. intros Hfind.
  apply find_some in Hfind as [Hin Hbad].
  split; [by apply list_elem_of_In|].
  by destruct (assoc key FIELDS).
Qed.

Lemma invalid_field_None kw :
  invalid_field kw = None ->
  forall key, key ∈ kw.*1 -> is_Some (assoc key FIELDS).
Proof.
  unfold invalid_field. intros Hfind key Hin.
  apply list_elem_of_In in Hin.
  pose proof (find_none _ _ Hfind key Hin) as Hok. cbv beta in Hok.
  destruct (assoc key FIELDS); [eauto | discriminate].
Qed.

Lemma invalid_field_exists kw name :
  name ∈ kw.*1 -> assoc name FIELDS = None ->
  exists key, invalid_field kw = Some key.
Proof.
  intros Hin Hbad. destruct (invalid_field kw) as [key|] eqn:Hfind; [eauto|].
  destruct (invalid_field_None kw Hfind name Hin) as [info Hinfo].
  congruence.
Qed.

Lemma update_invalid i kw s key :
  invalid_field kw = Some key ->
  update i kw s = (Raise (invalid_field_error key), s).
Proof.
  intros Hkey. unfold update. unfold bind at 1.
  by rewrite check_fields_run, Hkey.
Qed.

Lemma append_invalid kw s key :
  invalid_field kw = Some key ->
  append kw s = (Raise (invalid_field_error key), s).
Proof.
  intros Hkey. unfold append. unfold bind at 1.
  by rewrite check_fields_run, Hkey.
Qed.

Lemma update_field_out_of_range i field_name value s :
  (List.length s <= i)%nat ->
  _update_field i field_name value s = (Raise IndexError, s).
Proof.
  intros Hi. unfold _update_field, bind, getitem.
  by rewrite (lookup_ge_None_2 s i Hi).
Qed.

Lemma update_out_of_range i kw s :
  (List.length s <= i)%nat ->
  update i kw s
  = (match invalid_field kw with
     | Some key => Raise (invalid_field_error key)
     | None => match kw with
               | [] => Return tt
               | _ :: _ => Raise IndexError
               end
     end, s).
Proof.
  intros Hi. unfold update. unfold bind at 1. rewrite check_fields_run.
  destruct (invalid_field kw); [done|].
  destruct kw as [|[key value] kw]; [done|].
  cbn [for_each].
  apply bind_Raise, bind_Raise. by apply update_field_out_of_range.
Qed.

End Refusals.

Section StoreClaims.
Context `{Env}.
Import OnRow.

(** C8: a call of [append] or [update] with a keyword argument whose
    name is not a declared field raises [KeyError] naming such a field
    (the first one given), and leaves the store as it was: no row is
    added and no field is written. *)
Theorem invalid_name_raises_before_any_write
    (kw : kwargs) (s : ImageStore) (name : string) :
  name ∈ kw.*1 ->
  assoc name FIELDS = None ->
  exists key,
    key ∈ kw.*1 /\ assoc key FIELDS = None /\
    invalid_field kw = Some key /\
    append kw s
    = (Raise (KeyError ("Invalid field '" +:+ key +:+ "'")), s) /\
    forall i,
      update i kw s
      = (Raise (KeyError ("Invalid field '" +:+ key +:+ "'")), s).
Proof.
  intros Hin Hbad.
  destruct (invalid_field_exists kw name Hin Hbad) as [key Hkey].
  destruct (invalid_field_Some kw key Hkey) as [Hkin Hkbad].
  exists key. repeat split; try done.
  - by apply append_invalid.
  - intros i. by apply update_invalid.
Qed.

(** C9: on a row whose [input_size] is 0, [update] with a positive
    [output_size] stores the size and then divides it by zero:
    the call raises [ZeroDivisionError]. *)
Theorem positive_output_size_divides_by_zero_input_size
    (i : nat) (s : ImageStore) (row : Row) (size : Z) :
  s !! i = Some row ->
  input_size row = 0 ->
  0 < size ->
  update i [("output_size", VInt size)] s
  = (Raise ZeroDivisionError, <[i := set_output_size size row]> s).
Proof.
  intros Hrow Hzero Hpos. rewrite (update_at i _ s row Hrow).
  cbn. unfold bind, read, gets, lift, output_size_text. cbn.
  rewrite Hzero. destruct (Z.ltb_spec 0 size); [done | lia].
Qed.

(** C10, amended: for an index past the last row, [get] and
    [remove_at_index] raise [IndexError]; [update] raises [KeyError]
    when a name is not a field, [IndexError] when it is given at least
    one argument and all names are fields, and returns normally when
    it is given no argument.  The rows are unchanged in every case. *)
Theorem index_past_the_end
    (i : nat) (kw : kwargs) (s : ImageStore) :
  (List.length s <= i)%nat ->
  get i s = (Raise IndexError, s) /\
  remove_at_index i s = (Raise IndexError, s) /\
  update i kw s
  = (match invalid_field kw with
     | Some key => Raise (invalid_field_error key)
     | None => match kw with
               | [] => Return tt
               | _ :: _ => Raise IndexError
               end
     end, s).
Proof.
  intros Hi. split; [|split].
  - unfold get, getitem. by rewrite (lookup_ge_None_2 s i Hi).
  - unfold remove_at_index, bind, try_except, get_iter.
    destruct (decide (i < List.length s)%nat); [lia | done].
  - by apply update_out_of_range.
Qed.

End StoreClaims.

Lemma invalid_name_witness :
  exists key,
    key ∈ [("foo", VStr "bar")].*1 /\ assoc key FIELDS = None /\
    OnRow.invalid_field [("foo", VStr "bar")] = Some key /\
    append (H:=Demo.env) [("foo", VStr "bar")] []
    = (Raise (KeyError ("Invalid field '" +:+ key +:+ "'")), []) /\
    forall i,
      update (H:=Demo.env) i [("foo", VStr "bar")] []
      = (Raise (KeyError ("Invalid field '" +:+ key +:+ "'")), []).
Proof.
  apply (invalid_name_raises_before_any_write (H:=Demo.env)
           [("foo", VStr "bar")] [] "foo").
  - vm_compute. constructor.
  - reflexivity.
Defined.

(** The row that [append()] adds to an empty store has [input_size] 0:
    a positive [output_size] then raises. *)
Lemma division_by_zero_witness :
  update (H:=Demo.env) 0 [("output_size", VInt 5)] [Demo.fresh]
  = (Raise ZeroDivisionError,
     <[0%nat := set_output_size 5 Demo.fresh]> [Demo.fresh]).
Proof.
  apply (positive_output_size_divides_by_zero_input_size (H:=Demo.env)
           0 [Demo.fresh] Demo.fresh 5).
  - reflexivity.
  - reflexivity.
  - reflexivity.
Defined.

Lemma index_past_the_end_witness :
  get 1 [Demo.fresh] = (Raise IndexError, [Demo.fresh]) /\
  remove_at_index 1 [Demo.fresh] = (Raise IndexError, [Demo.fresh]) /\
  update (H:=Demo.env) 1 [("output_file", VStr "ccc.png")] [Demo.fresh]
  = (Raise IndexError, [Demo.fresh]).
Proof.
  apply (index_past_the_end (H:=Demo.env) 1
           [("output_file", VStr "ccc.png")] [Demo.fresh]).
  vm_compute. constructor.
Defined.

(** [update] with an index past the end and no argument returns. *)
Lemma update_without_arguments_ignores_the_index :
  ~ (forall (E : Env) (i : nat) (kw : kwargs) (s : ImageStore),
        (List.length s <= i)%nat ->
        exists s', update i kw s = (Raise IndexError, s')).
Proof.
  intros Hclaim.
  destruct (Hclaim Demo.env 0%nat [] [] (Nat.le_refl 0)) as [s' Hs'].
  discriminate Hs'.
Qed.

(** ** The cascade started by the output format *)

Section FormatCascade.
Context `{Env}.
Import OnRow.

Lemma FORMATS_EXTS_Return :
  (forall fmt_id fmt, IMAGES_FORMATS !! fmt_id = Some fmt -> exts fmt <> []) ->
  _FORMATS_EXTS
  = Return (omap (fun fmt => head (exts fmt)) IMAGES_FORMATS).
Proof.
  intros Hexts. unfold _FORMATS_EXTS.
  destruct (forallb _ _) eqn:Hall; [done|].
  apply not_true_iff_false in Hall. destruct Hall.
  apply forallb_forall. intros [fmt_id fmt] Hin.
  apply list_elem_of_In, elem_of_map_to_list in Hin.
  apply bool_decide_eq_true. by eapply Hexts.
Qed.

(** C7: one update of [output_format] rewrites three more fields of
    the row: [output_format_display] becomes the display name of the
    format (with the quality for jpeg and webp, with the slow marker
    for a png whose [png_slow_optimization] is set), the extension of
    [output_file] becomes the first extension of the format, and
    [output_file_display] becomes the new [output_file] relative to the
    directory of the input file. *)
Theorem output_format_update_cascades
    (i : nat) (s : ImageStore) (row : Row)
    (fmt_id : string) (fmt : ImageFormat) (ext new_file : string) :
  s !! i = Some row ->
  IMAGES_FORMATS !! fmt_id = Some fmt ->
  (forall k f, IMAGES_FORMATS !! k = Some f -> exts f <> []) ->
  head (exts fmt) = Some ext ->
  path_with_suffix (output_file row) ext = Return new_file ->
  update i [("output_format", VStr fmt_id)] s
  = (Return tt,
     <[i := set_output_file_display
              (os_path_relpath new_file (path_parent (input_file row)))
              (set_output_file new_file
                 (set_output_format_display (format_text fmt_id fmt row)
                    (set_output_format fmt_id row)))]> s).
Proof.
  intros Hrow Hfmt Hexts Hext Hsuffix.
  rewrite (update_at i _ s row Hrow). cbn.
  unfold bind, read, gets, lift, subscript, format_text. cbn.
  rewrite (FORMATS_EXTS_Return Hexts).
  assert (Hlook : omap (fun f => head (exts f)) IMAGES_FORMATS !! fmt_id
                  = Some ext) by (by rewrite lookup_omap, Hfmt).
  destruct (String.eqb_spec fmt_id "jpeg") as [->|_];
    [by rewrite Hfmt; cbn; rewrite Hlook; cbn; rewrite Hsuffix|].
  destruct (String.eqb_spec fmt_id "webp") as [->|_];
    [by rewrite Hfmt; cbn; rewrite Hlook; cbn; rewrite Hsuffix|].
  destruct (String.eqb_spec fmt_id "png") as [->|_];
    [by rewrite Hfmt; cbn; rewrite Hlook; cbn; rewrite Hsuffix|].
  by rewrite Hfmt; cbn; rewrite Hlook; cbn; rewrite Hsuffix.
Qed.

End FormatCascade.

Lemma output_format_update_witness :
  update (H:=Demo.env) 0 [("output_format", VStr "png")] [Demo.photo]
  = (Return tt,
     <[0%nat := set_output_file_display "a.opti.png"
                  (set_output_file "/tmp/a.opti.png"
                     (set_output_format_display "PNG"
                        (set_output_format "png" Demo.photo)))]>
       [Demo.photo]).
Proof.
  apply (output_format_update_cascades (H:=Demo.env) 0 [Demo.photo]
           Demo.photo "png" {| display_name := "PNG"; exts := [".png"] |}
           ".png" "/tmp/a.opti.png").
  - reflexivity.
  - reflexivity.
  - intros k f Hk.
    assert (Hin : (k, f) ∈ map_to_list Demo.formats)
      by (by apply elem_of_map_to_list).
    vm_compute in Hin.
    repeat (apply elem_of_cons in Hin as [Hin|Hin]; [by inversion Hin|]).
    by apply elem_of_nil in Hin.
  - reflexivity.
  - reflexivity.
Defined.

(** ** Which display fields a call refreshes *)

Section Refresh.
Context `{Env}.
Import OnRow.

Lemma input_file_display_step_inv kw r r' :
  input_file_display_step kw r = (Return tt, r') ->
  r' = if kw_in "input_file" kw
       then set_input_file_display (path_name (input_file r)) r
       else r.
Proof.
  unfold input_file_display_step, when.
  destruct (kw_in "input_file" kw); cbn; by intros [= <-].
Qed.

Lemma output_format_step_inv kw r r' :
  output_format_step kw r = (Return tt, r') ->
  if kw_in "output_format" kw || kw_in "jpeg_quality" kw
     || kw_in "webp_quality" kw || kw_in "png_slow_optimization" kw
  then exists text new_file,
      output_format_text r = Return text /\
      r' = set_output_file new_file (set_output_format_display text r)
  else r' = r.
Proof.
  unfold output_format_step, when, output_format_text, format_text.
  destruct (_ || _); [|by intros [= <-]].
  unfold bind, lift, read, gets, subscript.
  destruct _FORMATS_EXTS as [formats_exts|]; [|done]. cbn.
  destruct (String.eqb_spec (output_format r) "jpeg") as [->|_];
    [|destruct (String.eqb_spec (output_format r) "webp") as [->|_];
      [|destruct (String.eqb_spec (output_format r) "png") as [->|_]]].
  all: destruct (IMAGES_FORMATS !! _) as [fmt|]; [|done]; cbn.
  all: destruct (formats_exts !! _) as [ext|]; [|done]; cbn.
  all: destruct (path_with_suffix _ _) as [new_file|]; [|done]; cbn.
  all: intros [= <-]; eauto.
Qed.

Lemma output_file_display_step_inv kw r r' :
  output_file_display_step kw r = (Return tt, r') ->
  r' = if kw_in "output_file" kw || kw_in "output_format" kw
       then set_output_file_display
              (os_path_relpath (output_file r) (path_parent (input_file r)))
              r
       else r.
Proof.
  unfold output_file_display_step, when.
  destruct (_ || _); cbn; by intros [= <-].
Qed.

Lemma input_size_display_step_inv kw r r' :
  input_size_display_step kw r = (Return tt, r') ->
  r' = if kw_in "input_size" kw
       then set_input_size_display
              (human_readable_file_size (input_size r)) r
       else r.
Proof.
  unfold input_size_display_step, when.
  destruct (kw_in "input_size" kw); cbn; by intros [= <-].
Qed.

Lemma output_size_display_step_inv kw r r' :
  output_size_display_step kw r = (Return tt, r') ->
  if kw_in "output_size" kw
  then exists text,
      output_size_text (input_size r) (output_size r) = Return text /\
      r' = set_output_size_display text r
  else r' = r.
Proof.
  unfold output_size_display_step, when.
  destruct (kw_in "output_size" kw); [|by intros [= <-]].
  unfold bind, lift, read, gets.
  destruct (output_size_text _ _) as [text|]; [|done]. cbn.
  intros [= <-]. eauto.
Qed.

Lemma status_display_step_inv kw r r' :
  status_display_step kw r = (Return tt, r') ->
  if kw_in "status" kw
  then exists text,
      _STATUS (status r) = Some text /\ r' = set_status_display text r
  else r' = r.
Proof.
  unfold status_display_step, when.
  destruct (kw_in "status" kw); [|by intros [= <-]].
  unfold bind, read, gets, subscript.
  destruct (_STATUS _) as [text|]; [|done]. cbn.
  intros [= <-]. eauto.
Qed.

(** The steps of [update], when they all return, leave every display
    field they were triggered for equal to what the base fields give. *)
Lemma update_steps_refresh kw r r' :
  update_steps kw r = (Return tt, r') -> display_fields_refreshed kw r'.
Proof.
  unfold update_steps. intros Hrun.
  apply bind_inv in Hrun as ([] & r0 & _ & Hrun).
  apply bind_inv in Hrun as ([] & r1 & H1 & Hrun).
  apply bind_inv in Hrun as ([] & r2 & H2 & Hrun).
  apply bind_inv in Hrun as ([] & r3 & H3 & Hrun).
  apply bind_inv in Hrun as ([] & r4 & H4 & Hrun).
  apply bind_inv in Hrun as ([] & r5 & H5 & H6).
  apply input_file_display_step_inv in H1.
  apply output_format_step_inv in H2.
  apply output_file_display_step_inv in H3.
  apply input_size_display_step_inv in H4.
  apply output_size_display_step_inv in H5.
  apply status_display_step_inv in H6.
  unfold display_fields_refreshed.
  destruct (kw_in "input_file" kw);
    destruct (_ || _) in H2 |- *;
    destruct (_ || _) in H3 |- *;
    destruct (kw_in "input_size" kw);
    destruct (kw_in "output_size" kw);
    destruct (kw_in "status" kw).
  all: repeat match goal with
              | Hx : exists _, _ |- _ => destruct Hx
              | Hx : _ /\ _ |- _ => destruct Hx
              end; subst.
  all: unfold output_format_text in *; cbn in *.
  all: repeat split; intros; try discriminate; try done; try congruence.
Qed.

End Refresh.

Section RefreshClaim.
Context `{Env}.
Import OnRow.

Lemma update_refresh i kw s s' row' :
  update i kw s = (Return tt, s') ->
  s' !! i = Some row' ->
  display_fields_refreshed kw row'.
Proof.
  intros Hrun Hrow'. destruct (s !! i) as [row|] eqn:Hrow.
  - rewrite (update_at i kw s row Hrow) in Hrun.
    destruct (invalid_field kw); [discriminate|].
    destruct (update_steps kw row) as [[[]|e] r1] eqn:Hsteps;
      [|discriminate].
    injection Hrun as <-.
    rewrite list_lookup_insert_eq in Hrow'
      by (by eapply lookup_lt_Some).
    injection Hrow' as <-. by eapply update_steps_refresh.
  - apply lookup_ge_None in Hrow.
    rewrite (update_out_of_range i kw s Hrow) in Hrun.
    injection Hrun as _ <-.
    apply lookup_ge_None in Hrow. congruence.
Qed.

(** C1, amended: after a call of [append] or [update] that returns, a
    display field of the addressed row equals the function of the
    row's base fields whenever one of its triggers is among the
    keyword arguments of the call: [input_file] for
    [input_file_display]; [output_format], [jpeg_quality],
    [webp_quality] or [png_slow_optimization] for
    [output_format_display]; [output_file] or [output_format] for
    [output_file_display]; [input_size] for [input_size_display];
    [output_size] for [output_size_display]; [status] for
    [status_display]. *)
Theorem mutation_refreshes_triggered_display_fields
    (m : Mutation) (s s' : ImageStore) (row' : Row) :
  mutate m s = (Return tt, s') ->
  s' !! target m s = Some row' ->
  display_fields_refreshed (arguments m) row'.
Proof.
  destruct m as [kw|i kw]; cbn [mutate target arguments].
  - unfold append. intros Hrun Hrow'.
    apply bind_inv in Hrun as ([] & s0 & Hcheck & Hrun).
    rewrite check_fields_run in Hcheck. injection Hcheck as _ <-.
    apply bind_inv in Hrun as (row & s1 & Hnew & Hrun).
    unfold lift in Hnew. injection Hnew as _ <-.
    apply bind_inv in Hrun as (iter_ & s2 & Hpush & Hrun).
    injection Hpush as <- <-.
    by eapply update_refresh.
  - apply update_refresh.
Qed.

End RefreshClaim.

Lemma mutation_refreshes_witness :
  OnRow.display_fields_refreshed (H:=Demo.env)
    [("input_size", VInt 200)]
    (set_input_size_display "200 B" (set_input_size 200 Demo.photo)).
Proof.
  apply (mutation_refreshes_triggered_display_fields (H:=Demo.env)
           (OnRow.Update 0 [("input_size", VInt 200)])
           [Demo.photo]
           [set_input_size_display "200 B" (set_input_size 200 Demo.photo)]).
  - reflexivity.
  - reflexivity.
Defined.

(** A row that is current after [append], and whose
    [output_size_display] still shows the old ratio after [update] has
    changed [input_size]. *)
Example output_size_display_after_new_input_size :
  forall s1 s2,
    append (H:=Demo.env) Demo.sized_kw [] = (Return tt, s1) ->
    update (H:=Demo.env) 0 [("input_size", VInt 200)] s1 = (Return tt, s2) ->
    Forall (OnRow.display_fields_current (H:=Demo.env)) s1 /\
    output_size_display <$> s2 !! 0%nat = Some "50 B (-50.0 %)" /\
    (fun row => output_size_text (H:=Demo.env)
                  (input_size row) (output_size row)) <$> s2 !! 0%nat
    = Some (Return "50 B (-75.0 %)").
Proof.
  intros s1 s2 Hs1 Hs2. vm_compute in Hs1. injection Hs1 as <-.
  vm_compute in Hs2. injection Hs2 as <-.
  split; [|split]; [|vm_compute; reflexivity..].
  repeat constructor.
Qed.

(** The display fields are not current after every mutation:
    [update(0, input_size=200)] leaves [output_size_display] as it was. *)
Lemma new_input_size_leaves_output_size_display_stale :
  ~ (forall (E : Env) (ms : list OnRow.Mutation) (s : ImageStore),
        (for_each ms OnRow.mutate [] ).2 = s ->
        Forall OnRow.display_fields_current s).
Proof.
  intros Hclaim.
  pose proof (Hclaim Demo.env
                [OnRow.Append Demo.sized_kw;
                 OnRow.Update 0 [("input_size", VInt 200)]]
                _ eq_refl) as Hall.
  assert (Hcheck : forallb (OnRow.output_size_display_current (H:=Demo.env))
                     (for_each
                        [OnRow.Append Demo.sized_kw;
                         OnRow.Update 0 [("input_size", VInt 200)]]
                        (OnRow.mutate (H:=Demo.env)) []).2 = true).
  { apply forallb_forall. intros row Hin. apply list_elem_of_In in Hin.
    eapply Forall_forall in Hall as (_ & _ & _ & Hsize & _); [|exact Hin].
    unfold OnRow.output_size_display_current. rewrite <- Hsize.
    apply String.eqb_refl. }
  vm_compute in Hcheck. discriminate Hcheck.
Qed.

(** ** What a method leaves alone *)

Section Preserved.
Context {S X : Type} (f : S -> X).

Lemma preserves_ret {A} (a : A) : preserves f (ret a).
Proof. done. Qed.

Lemma preserves_raise {A} e : preserves (A:=A) f (raise e).
Proof. done. Qed.

Lemma preserves_lift {A} (o : outcome A) : preserves f (lift o).
Proof. done. Qed.

Lemma preserves_gets {A} (g : S -> A) : preserves f (gets g).
Proof. done. Qed.

Lemma preserves_subscript {A} (d : option A) key :
  preserves f (subscript d key).
Proof. by destruct d. Qed.

Lemma preserves_modify (g : S -> S) :
  (forall s, f (g s) = f s) -> preserves f (modify g).
Proof. intros Hg s. apply Hg. Qed.

Lemma preserves_bind {A B} (m : M S A) (k : A -> M S B) :
  preserves f m -> (forall a, preserves f (k a)) -> preserves f (bind m k).
Proof.
  intros Hm Hk s. unfold bind. specialize (Hm s).
  destruct (m s) as [[a|e] s1]; [|done].
  rewrite <- Hm. apply Hk.
Qed.

Lemma preserves_when c (m : M S unit) :
  preserves f m -> preserves f (when c m).
Proof. by destruct c. Qed.

Lemma preserves_for_each {A} (l : list A) (body : A -> M S unit) :
  (forall x, preserves f (body x)) -> preserves f (for_each l body).
Proof.
  intros Hbody. induction l as [|x l IH]; [done|].
  apply preserves_bind; [apply Hbody | intros _; apply IH].
Qed.

Lemma preserves_for_acc {A B} (l : list A) (acc : B)
    (body : A -> B -> M S B) :
  (forall x b, preserves f (body x b)) -> preserves f (for_acc l acc body).
Proof.
  intros Hbody. revert acc. induction l as [|x l IH]; intros acc; [done|].
  apply preserves_bind; [apply Hbody | intros b; apply IH].
Qed.

End Preserved.

Section ApplicationFacts.
Context `{Env}.

Lemma preserves_on_store {X A} (f : Application -> X) (m : M ImageStore A) :
  (forall s a, f (set_image_store s a) = f a) -> preserves f (on_store m).
Proof.
  intros Hf a. unfold on_store. destruct (m (image_store a)) as [o s].
  apply Hf.
Qed.

Ltac preserves_step :=
  first
    [ apply preserves_bind; [|intros ?]
    | apply preserves_when
    | apply preserves_for_each; intros ?
    | apply preserves_for_acc; intros ? ?
    | apply preserves_on_store; intros ? ?; reflexivity
    | apply preserves_modify; intros ?; reflexivity
    | apply preserves_ret
    | apply preserves_raise
    | apply preserves_lift
    | apply preserves_gets
    | apply preserves_subscript
    | match goal with
      | |- preserves _ (if ?c then _ else _) => destruct c
      | |- preserves _ (match ?x with _ => _ end) => destruct x
      | |- preserves _ (let x := _ in _) => cbv zeta
      end ].

Ltac preserves_all := repeat preserves_step.

Lemma switch_state_preserves {X} (f : Application -> X) state :
  (forall x a, f (set_current_state x a) = f a) ->
  (forall x a, f (set_main_window x a) = f a) ->
  preserves f (switch_state state).
Proof.
  intros Hstate Hwindow. unfold switch_state.
  apply preserves_bind; [by apply preserves_modify|intros _].
  apply preserves_bind; [apply preserves_gets|intros [w|]].
  - by apply preserves_modify.
  - apply preserves_raise.
Qed.

Lemma stop_optimization_submitted : preserves submitted stop_optimization.
Proof.
  unfold stop_optimization.
  apply preserves_bind; [apply preserves_gets|intros st].
  destruct (bool_decide _); [apply preserves_ret|].
  apply preserves_bind; [apply preserves_gets|intros ex].
  apply preserves_bind; [|intros _; apply preserves_bind; [|intros _]].
  - preserves_all.
  - apply preserves_modify. intros a. unfold submitted. cbn.
    rewrite map_map. by apply map_ext.
  - by apply switch_state_preserves.
Qed.

Lemma stop_optimization_workers : preserves workers stop_optimization.
Proof.
  intros a. unfold stop_optimization, switch_state, bind, gets, modify.
  cbn. destruct (bool_decide _); [done|].
  unfold workers. destruct (_executor a) as [ex|] eqn:Hex; cbn.
  - by destruct (_main_window a).
  - by rewrite Hex.
Qed.

Lemma polling_preserves {X} (f : Application -> X) world :
  (forall s a, f (set_image_store s a) = f a) ->
  (forall x a, f (set_timeout_sources x a) = f a) ->
  preserves f stop_optimization ->
  preserves f (_update_optimization_status world).
Proof.
  intros Hstore Htimeouts Hstop. unfold _update_optimization_status.
  apply preserves_bind; [apply preserves_gets|intros st].
  destruct (bool_decide _); [apply preserves_ret|].
  apply preserves_bind; [apply preserves_gets|intros n].
  apply preserves_bind; [|intros [|]; [by apply preserves_modify|done]].
  apply preserves_for_acc. intros i b. unfold poll_future.
  destruct (running world i); [|destruct (done world i)].
  all: repeat (apply preserves_bind; [|intros ?]).
  all: first [ by apply preserves_on_store | apply preserves_ret
             | apply preserves_lift ].
Qed.

End ApplicationFacts.

(** ** Submitting the batch *)

Section Optimize.
Context `{Env}.

Lemma collect_get k m (s : ImageStore) :
  (k + m <= List.length s)%nat ->
  collect (seq k m) get s = (Return (take m (drop k s)), s).
Proof.
  revert k. induction m as [|m IH]; intros k Hk; [done|].
  cbn [seq collect]. unfold bind at 1. unfold get at 1, getitem.
  destruct (lookup_lt_is_Some_2 s k) as [row Hrow]; [lia|].
  rewrite Hrow. unfold bind. rewrite IH by lia. cbn.
  by rewrite (drop_S _ _ _ Hrow).
Qed.

Lemma get_all_run (s : ImageStore) : get_all s = (Return s, s).
Proof.
  unfold get_all, bind, ImageStore.length, gets.
  rewrite collect_get by done. by rewrite drop_0, firstn_all.
Qed.

Lemma submit_rows rows a ex :
  _executor a = Some ex ->
  shutdown_called ex = false ->
  for_each rows
    (fun row =>
       quality <- lift (truediv (jpeg_quality row) 100) ;;
       future <- submit
         {| arg_input_file := input_file row;
            arg_output_file := output_file row;
            arg_options :=
              [("output_format", OStr (lower (output_format row)));
               ("jpeg_quality", OFloat quality)] |} ;;
       modify (fun a => set_futures (_futures a ++ [future]) a)) a
  = (Return tt,
     set_futures
       (_futures a
        ++ map (fun row => {| call := submitted_call row;
                              cancel_called := false |}) rows) a).
Proof.
  intros Hex Hopen. revert a Hex.
  induction rows as [|row rows IH]; intros a Hex.
  - cbn. rewrite app_nil_r. by destruct a.
  - cbn [for_each]. unfold bind at 1.
    unfold bind, lift, submit, gets, modify. cbn. rewrite Hex, Hopen. cbn.
    rewrite IH by done. cbn. by rewrite <- app_assoc.
Qed.

Lemma switch_state_run state a w :
  _main_window a = Some w ->
  switch_state state a
  = (Return tt,
     mkApp (Some state) (image_store a)
       (Some {| window_state := Some state; visible := visible w |})
       (_executor a) (_futures a) (timeout_sources a)).
Proof.
  intros Hw. unfold switch_state, bind, modify, gets. cbn. by rewrite Hw.
Qed.

Lemma on_store_get_all a :
  on_store get_all a = (Return (image_store a), a).
Proof. unfold on_store. rewrite get_all_run. by destruct a. Qed.

(** [optimize], up to the point where it starts polling. *)
Lemma optimize_run world a w :
  _main_window a = Some w ->
  optimize world a
  = _update_optimization_status world (submitted_all w a).
Proof.
  intros Hw. unfold optimize.
  erewrite bind_Return by (by apply switch_state_run).
  erewrite bind_Return by reflexivity.
  erewrite bind_Return by reflexivity.
  erewrite bind_Return by apply on_store_get_all.
  erewrite bind_Return by (by eapply submit_rows).
  done.
Qed.

End Optimize.

Section BatchClaims.
Context `{Env}.

Lemma optimize_submitted world a w :
  _main_window a = Some w ->
  submitted (optimize world a).2 = map submitted_call (image_store a).
Proof.
  intros Hw. rewrite (optimize_run world a w Hw).
  rewrite polling_preserves;
    [|done|done|apply stop_optimization_submitted].
  unfold submitted, submitted_all. cbn. by rewrite map_map.
Qed.

(** The options of every submitted call: the output format in lower
    case and the JPEG quality as a fraction, and nothing else. *)
Lemma optimize_options world a w :
  _main_window a = Some w ->
  map (fun f => arg_options (call f)) (_futures (optimize world a).2)
  = map submitted_options (image_store a).
Proof.
  intros Hw. pose proof (optimize_submitted world a w Hw) as Hsub.
  apply (f_equal (map arg_options)) in Hsub. unfold submitted in Hsub.
  by rewrite !map_map in Hsub.
Qed.

(** C3: [optimize] submits exactly one call per row of the store: there
    are as many futures as rows, and the call at each position takes
    the [input_file] and the [output_file] of the row at that position. *)
Theorem optimize_submits_one_call_per_row
    (world : World) (a : Application) (w : MainWindow) :
  _main_window a = Some w ->
  List.length (_futures (optimize world a).2)
  = List.length (image_store a) /\
  map (fun f => (arg_input_file (call f), arg_output_file (call f)))
      (_futures (optimize world a).2)
  = map (fun row => (input_file row, output_file row)) (image_store a).
Proof.
  intros Hw. pose proof (optimize_submitted world a w Hw) as Hsub.
  unfold submitted in Hsub. split.
  - apply (f_equal (@List.length Call)) in Hsub.
    by rewrite !length_map in Hsub.
  - apply (f_equal (map (fun c => (arg_input_file c, arg_output_file c))))
      in Hsub.
    by rewrite !map_map in Hsub.
Qed.

(** C6: every call of [optimize] leaves the application with a thread
    pool of 2 workers, whatever the number of rows. *)
Theorem optimize_creates_a_pool_of_two_workers
    (world : World) (a : Application) (w : MainWindow) :
  _main_window a = Some w ->
  max_workers <$> _executor (optimize world a).2 = Some 2%nat.
Proof.
  intros Hw. rewrite (optimize_run world a w Hw).
  change (workers (_update_optimization_status world (submitted_all w a)).2
          = Some 2%nat).
  by rewrite polling_preserves;
    [|done|done|apply stop_optimization_workers].
Qed.

End BatchClaims.

Lemma optimize_submits_witness :
  List.length
    (_futures (optimize (H:=Demo.env) Demo.world
                 (Demo.managing Demo.batch)).2)
  = List.length (image_store (Demo.managing Demo.batch)) /\
  map (fun f => (arg_input_file (call f), arg_output_file (call f)))
      (_futures (optimize (H:=Demo.env) Demo.world
                   (Demo.managing Demo.batch)).2)
  = map (fun row => (input_file row, output_file row))
      (image_store (Demo.managing Demo.batch)).
Proof.
  apply (optimize_submits_one_call_per_row (H:=Demo.env) Demo.world
           (Demo.managing Demo.batch) Demo.window).
  reflexivity.
Defined.

Lemma optimize_pool_witness :
  max_workers
  <$> _executor (optimize (H:=Demo.env) Demo.world
                   (Demo.managing Demo.batch)).2
  = Some 2%nat.
Proof.
  apply (optimize_creates_a_pool_of_two_workers (H:=Demo.env) Demo.world
           (Demo.managing Demo.batch) Demo.window).
  reflexivity.
Defined.

(** C2: a row set to PNG with the slow optimization and a WebP quality of
    50 is submitted with its output format and its JPEG quality only: the
    options of the call hold neither [png_slow_optimization] nor
    [webp_quality], so the optimizer is not invoked with the row's
    optimization mode. *)
Theorem slow_png_is_submitted_without_its_mode :
  map (fun f => arg_options (call f))
      (_futures (optimize (H:=Demo.env) Demo.world_done
                   (Demo.managing [Demo.slow_png])).2)
  = [[("output_format", OStr "png");
      ("jpeg_quality", OFloat 0x1.ccccccccccccdp-1%float)]].
Proof. vm_compute. reflexivity. Qed.

(** ** Stopping and polling *)

Section Polling.
Context `{Env}.
Import OnRow.

Lemma stop_optimization_run a w ex :
  current_state a = Some STATE_OPTIMIZE ->
  _main_window a = Some w ->
  _executor a = Some ex ->
  stop_optimization a = (Return tt, stopped w ex a).
Proof.
  intros Hst Hw Hex.
  unfold stop_optimization, switch_state, bind, gets, modify. cbn.
  rewrite Hst, bool_decide_eq_false_2 by (by intros Hne; apply Hne).
  rewrite Hex. cbn. by rewrite Hw.
Qed.

Lemma stop_optimization_idle a :
  current_state a <> Some STATE_OPTIMIZE ->
  stop_optimization a = (Return tt, a).
Proof.
  intros Hst. unfold stop_optimization, bind, gets. cbn.
  by rewrite bool_decide_eq_true_2.
Qed.

Lemma output_size_text_Return in_size out_size :
  (0 < out_size -> in_size <> 0) ->
  exists text, output_size_text in_size out_size = Return text.
Proof.
  intros Hsize. unfold output_size_text, truediv.
  destruct (Z.ltb_spec 0 out_size); [|eauto].
  destruct (Z.eqb_spec in_size 0); [by destruct Hsize | eauto].
Qed.

(** What a poll writes to the row of a future. *)
Lemma update_status_and_size i (s : ImageStore) row st size :
  s !! i = Some row ->
  st = STATUS_PENDING \/ st = STATUS_IN_PROGRESS \/ st = STATUS_DONE ->
  (0 < size -> input_size row <> 0) ->
  exists row',
    update i [("status", VInt st); ("output_size", VInt size)] s
    = (Return tt, <[i := row']> s) /\
    status row' = st.
Proof.
  intros Hrow Hst Hsize.
  destruct (output_size_text_Return (input_size row) size Hsize)
    as [text Htext].
  rewrite (update_at i _ s row Hrow). cbn.
  unfold bind, read, gets, lift, subscript. cbn. rewrite Htext. cbn.
  destruct Hst as [->|[->| ->]]; cbn; eauto.
Qed.

Lemma on_store_update i kw a row' :
  update i kw (image_store a)
  = (Return tt, <[i := row']> (image_store a)) ->
  on_store (update i kw) a
  = (Return tt, set_image_store (<[i := row']> (image_store a)) a).
Proof. intros Hrun. unfold on_store. by rewrite Hrun. Qed.

Lemma poll_future_run world i acc a row :
  image_store a !! i = Some row ->
  (running world i = false -> done world i = true ->
   exists size, st_size world (output_file row) = Return size /\
                (0 < size -> input_size row <> 0)) ->
  exists row',
    poll_future world i acc a
    = (Return (acc || running world i),
       set_image_store (<[i := row']> (image_store a)) a) /\
    status row' = future_status world i.
Proof.
  intros Hrow Hdone. unfold poll_future, future_status.
  destruct (running world i) eqn:Hrunning; [|destruct (done world i)].
  - destruct (update_status_and_size i (image_store a) row
                STATUS_IN_PROGRESS 0 Hrow) as (row' & Hrun & Hstatus);
      [auto | lia |].
    exists row'. split; [|done].
    erewrite bind_Return by (by apply on_store_update).
    by rewrite orb_true_r.
  - destruct Hdone as (size & Hstat & Hsize); [done..|].
    destruct (update_status_and_size i (image_store a) row
                STATUS_DONE size Hrow) as (row' & Hrun & Hstatus);
      [auto | done |].
    exists row'. split; [|done].
    erewrite bind_Return; cycle 1.
    { unfold on_store, get, getitem. rewrite Hrow. by destruct a. }
    unfold lift. erewrite bind_Return by (by rewrite Hstat).
    erewrite bind_Return by (by apply on_store_update).
    by rewrite orb_false_r.
  - destruct (update_status_and_size i (image_store a) row
                STATUS_PENDING 0 Hrow) as (row' & Hrun & Hstatus);
      [auto | lia |].
    exists row'. split; [|done].
    erewrite bind_Return by (by apply on_store_update).
    by rewrite orb_false_r.
Qed.

(** The loop of [_update_optimization_status] over the futures at
    positions [k], ..., [k + m - 1], when those are the last rows of
    the store. *)
Lemma poll_loop_run world m k acc a :
  (k + m = List.length (image_store a))%nat ->
  (forall i row,
      (k <= i)%nat ->
      image_store a !! i = Some row ->
      running world i = false -> done world i = true ->
      exists size, st_size world (output_file row) = Return size /\
                   (0 < size -> input_size row <> 0)) ->
  exists s' : ImageStore,
    for_acc (seq k m) acc (poll_future world) a
    = (Return (acc || existsb (running world) (seq k m)),
       set_image_store s' a) /\
    List.length s' = List.length (image_store a) /\
    forall i row',
      s' !! i = Some row' ->
      if decide (i < k)%nat then image_store a !! i = Some row'
      else status row' = future_status world i.
Proof.
  revert k acc a. induction m as [|m IH]; intros k acc a Hlen Hfiles.
  - exists (image_store a). cbn. rewrite orb_false_r.
    split; [by destruct a|]. split; [done|].
    intros i row' Hrow'. apply lookup_lt_Some in Hrow' as Hi.
    destruct (decide (i < k)%nat); [done | lia].
  - destruct (lookup_lt_is_Some_2 (image_store a) k) as [row Hrow]; [lia|].
    destruct (poll_future_run world k acc a row Hrow
                (Hfiles k row (Nat.le_refl k) Hrow))
      as (row1 & Hpoll & Hstatus).
    set (a1 := set_image_store (<[k := row1]> (image_store a)) a) in *.
    destruct (IH (Datatypes.S k) (acc || running world k) a1)
      as (s' & Hloop & Hlen' & Hrows).
    { cbn. rewrite length_insert. lia. }
    { intros i row' Hi Hrow'. cbn in Hrow'.
      rewrite list_lookup_insert_ne in Hrow' by lia.
      apply Hfiles; [lia | done]. }
    exists s'. split; [|split].
    + cbn [seq for_acc existsb]. erewrite bind_Return by exact Hpoll.
      rewrite Hloop. by rewrite orb_assoc.
    + rewrite Hlen'. cbn. by rewrite length_insert.
    + intros i row' Hrow'. specialize (Hrows i row' Hrow'). cbn in Hrows.
      destruct (decide (i < Datatypes.S k)%nat) as [Hlt|Hge].
      * destruct (decide (i = k)) as [->|Hne].
        -- rewrite list_lookup_insert_eq in Hrows by lia.
           injection Hrows as <-.
           destruct (decide (k < k)%nat); [lia | done].
        -- rewrite list_lookup_insert_ne in Hrows by done.
           destruct (decide (i < k)%nat); [done | lia].
      * destruct (decide (i < k)%nat); [lia | done].
Qed.

End Polling.

Section Events.
Context `{Env}.

Lemma do_activate_submitted : preserves submitted do_activate.
Proof.
  unfold do_activate.
  apply preserves_bind; [apply preserves_gets|intros w].
  apply preserves_bind; [|intros _].
  - destruct w; [apply preserves_ret|].
    apply preserves_bind; [by apply preserves_modify|intros _].
    by apply switch_state_preserves.
  - apply preserves_bind; [apply preserves_gets|intros [w'|]].
    + by apply preserves_modify.
    + apply preserves_raise.
Qed.

Lemma add_image_submitted world path :
  preserves submitted (add_image world path).
Proof.
  unfold add_image. cbv zeta.
  repeat (apply preserves_bind; [|intros ?]).
  all: first [ by apply preserves_on_store | apply preserves_lift
             | apply preserves_subscript ].
Qed.

Lemma polling_submitted world :
  preserves submitted (_update_optimization_status world).
Proof.
  apply polling_preserves; [done..|apply stop_optimization_submitted].
Qed.

(** Only [optimize] submits calls. *)
Lemma handle_submitted world ev :
  ev <> OptimizeAction -> preserves submitted (handle world ev).
Proof.
  intros Hev. destruct ev; cbn [handle].
  - apply do_activate_submitted.
  - unfold do_open.
    apply preserves_bind; [apply do_activate_submitted|intros _].
    apply preserves_bind; [apply preserves_gets|intros st].
    destruct (bool_decide _); [apply preserves_ret|].
    apply preserves_for_each. intros path. apply add_image_submitted.
  - apply stop_optimization_submitted.
  - by destruct Hev.
  - apply stop_optimization_submitted.
  - apply add_image_submitted.
  - by apply preserves_on_store.
  - unfold timeout_fired.
    apply preserves_bind; [by apply preserves_modify|intros _].
    apply polling_submitted.
Qed.

(** C4: in the [STATE_OPTIMIZE] state, [stop_optimization] shuts the
    pool down, calls [cancel] on every future and switches back to
    [STATE_MANAGE_IMAGES]; in any other state it changes nothing; and
    no event other than the optimize action changes the calls that
    were submitted: nothing is submitted again. *)
Theorem stop_optimization_cancels_and_nothing_is_resubmitted
    (world : World) (a : Application) (ev : Event) :
  (current_state a = Some STATE_OPTIMIZE ->
   forall w ex,
     _main_window a = Some w ->
     _executor a = Some ex ->
     stop_optimization a = (Return tt, stopped w ex a) /\
     current_state (stopped w ex a) = Some STATE_MANAGE_IMAGES /\
     Forall (fun f => cancel_called f = true) (_futures (stopped w ex a)) /\
     List.length (_futures (stopped w ex a)) = List.length (_futures a)) /\
  (current_state a <> Some STATE_OPTIMIZE ->
   stop_optimization a = (Return tt, a)) /\
  (ev <> OptimizeAction ->
   map call (_futures (handle world ev a).2) = map call (_futures a)).
Proof.
  split; [|split].
  - intros Hst w ex Hw Hex. split; [by apply stop_optimization_run|].
    split; [done|]. cbn. split; [|by rewrite length_map].
    apply Forall_forall. intros f Hf.
    apply list_elem_of_fmap in Hf as (f0 & -> & _). done.
  - apply stop_optimization_idle.
  - intros Hev. by apply (handle_submitted world ev Hev a).
Qed.

(** C5: outside the [STATE_OPTIMIZE] state the polling step does
    nothing.  In that state, with one future per row and the output
    file of every finished future in place, it sets the status of every
    row from its future (running: in progress; else done: done; else
    pending), then adds a timeout of [POLL_INTERVAL] seconds for itself
    if a future is running, and otherwise ends the batch with
    [stop_optimization], adding no timeout. *)
Theorem polling_step (world : World) (a : Application) :
  (current_state a <> Some STATE_OPTIMIZE ->
   _update_optimization_status world a = (Return tt, a)) /\
  (current_state a = Some STATE_OPTIMIZE ->
   forall w ex,
     _main_window a = Some w ->
     _executor a = Some ex ->
     List.length (_futures a) = List.length (image_store a) ->
     (forall i row,
         image_store a !! i = Some row ->
         running world i = false -> done world i = true ->
         exists size, st_size world (output_file row) = Return size /\
                      (0 < size -> input_size row <> 0)) ->
     exists s' : ImageStore,
       List.length s' = List.length (image_store a) /\
       (forall i row',
           s' !! i = Some row' -> status row' = future_status world i) /\
       ((exists i, (i < List.length (_futures a))%nat /\
                   running world i = true) ->
        _update_optimization_status world a
        = (Return tt,
           set_timeout_sources (timeout_sources a ++ [POLL_INTERVAL])
             (set_image_store s' a))) /\
       ((forall i, (i < List.length (_futures a))%nat ->
                   running world i = false) ->
        _update_optimization_status world a
        = stop_optimization (set_image_store s' a) /\
        stop_optimization (set_image_store s' a)
        = (Return tt, stopped w ex (set_image_store s' a)))).
Proof.
  split.
  - intros Hst. unfold _update_optimization_status, bind, gets. cbn.
    by rewrite bool_decide_eq_true_2.
  - intros Hst w ex Hw Hex Hlen Hfiles.
    destruct (poll_loop_run world (List.length (_futures a)) 0 false a)
      as (s' & Hloop & Hlen' & Hrows); [done | eauto |].
    exists s'. split; [done|]. split.
    { intros i row' Hrow'. specialize (Hrows i row' Hrow').
      destruct (decide (i < 0)%nat); [lia | done]. }
    assert (Hrun : forall b,
               existsb (running world) (seq 0 (List.length (_futures a))) = b ->
               _update_optimization_status world a
               = (if b
                  then modify (fun a => set_timeout_sources
                                 (timeout_sources a ++ [POLL_INTERVAL]) a)
                  else stop_optimization) (set_image_store s' a)).
    { intros b Hb. unfold _update_optimization_status.
      unfold bind at 1, gets at 1. cbn beta iota.
      rewrite Hst, bool_decide_eq_false_2 by (by intros Hne; apply Hne).
      unfold bind at 1, gets at 1. cbn beta iota.
      erewrite bind_Return by exact Hloop. cbn [orb]. by rewrite Hb. }
    split.
    + intros (i & Hi & Hrunning). rewrite (Hrun true); [done|].
      apply existsb_exists. exists i. split; [|done].
      apply in_seq. lia.
    + intros Hidle. split.
      * rewrite (Hrun false); [done|].
        apply not_true_iff_false. intros Hex'.
        apply existsb_exists in Hex' as (i & Hi & Hrunning).
        apply in_seq in Hi. rewrite Hidle in Hrunning by lia. done.
      * by apply stop_optimization_run.
Qed.

End Events.

Lemma stop_optimization_witness :
  (stop_optimization (Demo.optimizing Demo.batch)
   = (Return tt,
      stopped Demo.busy_window {| max_workers := 2; shutdown_called := false |}
        (Demo.optimizing Demo.batch)) /\
   current_state
     (stopped Demo.busy_window {| max_workers := 2; shutdown_called := false |}
        (Demo.optimizing Demo.batch))
   = Some STATE_MANAGE_IMAGES /\
   Forall (fun f => cancel_called f = true)
     (_futures
        (stopped Demo.busy_window {| max_workers := 2; shutdown_called := false |}
           (Demo.optimizing Demo.batch))) /\
   List.length
     (_futures
        (stopped Demo.busy_window {| max_workers := 2; shutdown_called := false |}
           (Demo.optimizing Demo.batch)))
   = List.length (_futures (Demo.optimizing Demo.batch))) /\
  stop_optimization (Demo.managing Demo.batch)
  = (Return tt, Demo.managing Demo.batch) /\
  map call
    (_futures
       (handle (H:=Demo.env) Demo.world Timeout
          (Demo.optimizing Demo.batch)).2)
  = map call (_futures (Demo.optimizing Demo.batch)).
Proof.
  destruct (stop_optimization_cancels_and_nothing_is_resubmitted
              (H:=Demo.env) Demo.world (Demo.optimizing Demo.batch) Timeout)
    as (Hstop & _ & Hsame).
  destruct (stop_optimization_cancels_and_nothing_is_resubmitted
              (H:=Demo.env) Demo.world (Demo.managing Demo.batch) Timeout)
    as (_ & Hidle & _).
  split; [|split].
  - apply (Hstop eq_refl); reflexivity.
  - apply Hidle. discriminate.
  - apply Hsame. discriminate.
Defined.

Lemma polling_step_witness :
  exists s' : ImageStore,
    List.length s' = List.length Demo.batch /\
    (forall i row',
        s' !! i = Some row' -> status row' = future_status Demo.world i) /\
    ((exists i, (i < 2)%nat /\ running Demo.world i = true) ->
     _update_optimization_status (H:=Demo.env) Demo.world
       (Demo.optimizing Demo.batch)
     = (Return tt,
        set_timeout_sources [POLL_INTERVAL]
          (set_image_store s' (Demo.optimizing Demo.batch)))) /\
    ((forall i, (i < 2)%nat -> running Demo.world i = false) ->
     _update_optimization_status (H:=Demo.env) Demo.world
       (Demo.optimizing Demo.batch)
     = stop_optimization
         (set_image_store s' (Demo.optimizing Demo.batch)) /\
     stop_optimization
       (set_image_store s' (Demo.optimizing Demo.batch))
     = (Return tt,
        stopped Demo.busy_window {| max_workers := 2; shutdown_called := false |}
          (set_image_store s' (Demo.optimizing Demo.batch)))).
Proof.
  destruct (polling_step (H:=Demo.env) Demo.world (Demo.optimizing Demo.batch))
    as [_ Hpoll].
  apply (Hpoll eq_refl Demo.busy_window
           {| max_workers := 2; shutdown_called := false |}
           eq_refl eq_refl eq_refl).
  intros i row Hrow _ _. exists 40. split; [reflexivity|]. intros _.
  destruct i as [|[|i]]; cbn in Hrow; [| |discriminate Hrow].
  - injection Hrow as <-. cbn. lia.
  - injection Hrow as <-. cbn. lia.
Defined.

(** The same step on concrete futures: the first is running, the second
    has finished. *)
Example poll_on_concrete_futures :
  option_map status
    ((_update_optimization_status (H:=Demo.env) Demo.world
        (Demo.optimizing Demo.batch)).2.(image_store) !! 0%nat)
  = Some STATUS_IN_PROGRESS /\
  option_map status
    ((_update_optimization_status (H:=Demo.env) Demo.world
        (Demo.optimizing Demo.batch)).2.(image_store) !! 1%nat)
  = Some STATUS_DONE /\
  timeout_sources
    (_update_optimization_status (H:=Demo.env) Demo.world
       (Demo.optimizing Demo.batch)).2
  = [POLL_INTERVAL] /\
  current_state
    (_update_optimization_status (H:=Demo.env) Demo.world_done
       (Demo.optimizing Demo.batch)).2
  = Some STATE_MANAGE_IMAGES.
Proof. vm_compute. repeat split. Qed.

(** * Further properties of the store *)

Section Rows.
Context `{Env}.
Import OnRow.

(** [append] with declared names: the row of defaults is added, then
    updated in place. *)
Lemma append_at kw (s : ImageStore) :
  invalid_field kw = None ->
  append kw s
  = let '(o, row') := update_steps kw default_row in (o, s ++ [row']).
Proof.
  intros Hkw. unfold append.
  erewrite bind_Return by (by rewrite check_fields_run, Hkw).
  erewrite bind_Return by (by rewrite new_row_defaults).
  erewrite bind_Return by reflexivity.
  rewrite (update_at _ kw (s ++ [default_row]) default_row), Hkw.
  - destruct (update_steps kw default_row) as [o row'].
    rewrite insert_app_r_alt by done. by rewrite Nat.sub_diag.
  - rewrite lookup_app_r by done. by rewrite Nat.sub_diag.
Qed.

(** Whatever [update] does, it does to the row at [index]. *)
Lemma update_shape i kw (s : ImageStore) :
  (update i kw s).2 = s \/
  exists row', (i < List.length s)%nat /\ (update i kw s).2 = <[i := row']> s.
Proof.
  destruct (s !! i) as [row|] eqn:Hrow.
  - rewrite (update_at i kw s row Hrow).
    destruct (invalid_field kw); [by left|].
    destruct (update_steps kw row) as [o row']. right. exists row'.
    split; [by eapply lookup_lt_Some | done].
  - apply lookup_ge_None in Hrow.
    rewrite (update_out_of_range i kw s Hrow). by left.
Qed.

(** X1: [update] keeps the number of rows and every row but the one it
    addresses, whether it returns or raises. *)
Theorem update_touches_only_its_row (i : nat) (kw : kwargs) (s : ImageStore) :
  List.length (update i kw s).2 = List.length s /\
  forall j, j <> i -> (update i kw s).2 !! j = s !! j.
Proof.
  destruct (update_shape i kw s) as [->|(row' & Hi & ->)]; [done|].
  split; [apply length_insert|].
  intros j Hj. by apply list_lookup_insert_ne.
Qed.

(** X2: [append] with declared names adds exactly one row, at the end, and
    keeps the rows there were: also when the update of the new row
    raises. *)
Theorem append_adds_one_row_at_the_end (kw : kwargs) (s : ImageStore) :
  invalid_field kw = None ->
  exists row',
    (append kw s).2 = s ++ [row'] /\
    (append kw s).1 = (update_steps kw default_row).1.
Proof.
  intros Hkw. rewrite (append_at kw s Hkw).
  destruct (update_steps kw default_row) as [o row']. by exists row'.
Qed.

(** X3: [get_all] returns every row in the order of the store, which it
    leaves as it is, and [get] returns the row at each position. *)
Theorem get_all_returns_the_rows_in_order (s : ImageStore) :
  get_all s = (Return s, s) /\
  forall i row, s !! i = Some row <-> get i s = (Return row, s).
Proof.
  split; [apply get_all_run|].
  intros i row. unfold get, getitem. split.
  - by intros ->.
  - destruct (s !! i); [by intros [= ->] | discriminate].
Qed.

(** X4: [remove_at_index] on a row that exists removes that row: the rows
    before it stay and the rows after it move up by one. *)
Theorem remove_at_index_removes_the_row (i : nat) (s : ImageStore) :
  (i < List.length s)%nat ->
  remove_at_index i s = (Return tt, delete i s) /\
  Datatypes.S (List.length (delete i s)) = List.length s /\
  (forall j, (j < i)%nat -> delete i s !! j = s !! j) /\
  (forall j, (i <= j)%nat -> delete i s !! j = s !! Datatypes.S j).
Proof.
  intros Hi. split; [|split; [|split]].
  - unfold remove_at_index, bind, try_except, get_iter, remove, modify.
    by destruct (decide (i < List.length s)%nat); [|lia].
  - rewrite length_delete by (by apply lookup_lt_is_Some_2). lia.
  - intros j Hj. by apply list_lookup_delete_lt.
  - intros j Hj. by apply list_lookup_delete_ge.
Qed.

(** X5: removing the row that [append] has just added gives back the
    store there was, also when [append] raised on its arguments. *)
Theorem append_then_remove_last (kw : kwargs) (s : ImageStore) :
  invalid_field kw = None ->
  remove_at_index (List.length s) (append kw s).2 = (Return tt, s).
Proof.
  intros Hkw. rewrite (append_at kw s Hkw).
  destruct (update_steps kw default_row) as [o row']. cbn.
  unfold remove_at_index, bind, try_except, get_iter, remove, modify.
  destruct (decide _) as [_|Hlen].
  - by rewrite (delete_middle s [] row'), app_nil_r.
  - destruct Hlen. rewrite length_app. cbn. lia.
Qed.

(** X6: a [status] that is not one of the four known ones is stored, and
    then the lookup of its text raises [KeyError]: the row keeps its
    old [status_display]. *)
Theorem unknown_status_is_stored_then_raises
    (i : nat) (s : ImageStore) (row : Row) (st : Z) :
  s !! i = Some row ->
  _STATUS st = None ->
  update i [("status", VInt st)] s
  = (Raise (KeyError (pct_i st)), <[i := set_status st row]> s).
Proof.
  intros Hrow Hst. rewrite (update_at i _ s row Hrow). cbn.
  unfold bind, read, gets, subscript. cbn. by rewrite Hst.
Qed.

(** X7: an [output_format] that [IMAGES_FORMATS] does not have is stored,
    and then the lookup of its display name raises [KeyError]: the
    other fields of the row are as they were. *)
Theorem unknown_output_format_is_stored_then_raises
    (i : nat) (s : ImageStore) (row : Row) (fmt_id : string) :
  s !! i = Some row ->
  IMAGES_FORMATS !! fmt_id = None ->
  (forall k f, IMAGES_FORMATS !! k = Some f -> exts f <> []) ->
  update i [("output_format", VStr fmt_id)] s
  = (Raise (KeyError fmt_id), <[i := set_output_format fmt_id row]> s).
Proof.
  intros Hrow Hfmt Hexts. rewrite (update_at i _ s row Hrow). cbn.
  unfold bind, read, gets, lift, subscript. cbn.
  rewrite (FORMATS_EXTS_Return Hexts).
  destruct (String.eqb_spec fmt_id "jpeg") as [->|_];
    [by rewrite Hfmt|].
  destruct (String.eqb_spec fmt_id "webp") as [->|_];
    [by rewrite Hfmt|].
  destruct (String.eqb_spec fmt_id "png") as [->|_];
    [by rewrite Hfmt|].
  by rewrite Hfmt.
Qed.

End Rows.

(** ** What is written is what is read *)

Section ReadBack.
Context `{Env}.
Import OnRow.

Ltac by_name k :=
  repeat match goal with
         | |- context [String.eqb k ?l] =>
             destruct (String.eqb_spec k l) as [->|?]; [done|]
         end;
  done.

(** A write to a column is read back from it, and from it alone. *)
Lemma set_column_as_dict name info v row row' :
  assoc name FIELDS = Some info ->
  set_column (f_id info) v row = Some row' ->
  assoc name (as_dict row') = Some v /\
  forall k, k <> name -> assoc k (as_dict row') = assoc k (as_dict row).
Proof.
  intros Hinfo Hset. apply assoc_In in Hinfo. cbn in Hinfo.
  repeat (destruct Hinfo as [Hinfo|Hinfo]; [injection Hinfo as <- <-|]).
  all: try (destruct Hinfo).
  all: destruct v; try discriminate Hset; injection Hset as <-.
  all: (split; [reflexivity|]); intros k Hk; cbn.
  all: by_name k.
Qed.

Lemma write_same k v row row' :
  write k v row = (Return tt, row') -> assoc k (as_dict row') = Some v.
Proof.
  unfold write, bind, subscript.
  destruct (assoc k FIELDS) as [info|] eqn:Hinfo; [|discriminate]. cbn.
  destruct (set_column (f_id info) v row) as [r|] eqn:Hset; [|discriminate].
  intros [= <-]. by eapply set_column_as_dict.
Qed.

Lemma write_other k k0 v0 row row' :
  k <> k0 ->
  write k0 v0 row = (Return tt, row') ->
  assoc k (as_dict row') = assoc k (as_dict row).
Proof.
  intros Hk. unfold write, bind, subscript.
  destruct (assoc k0 FIELDS) as [info|] eqn:Hinfo; [|discriminate]. cbn.
  destruct (set_column (f_id info) v0 row) as [r|] eqn:Hset; [|discriminate].
  intros [= <-]. by eapply set_column_as_dict.
Qed.

Lemma writes_other k kw row row' :
  k ∉ kw.*1 ->
  for_each kw (fun '(key, value) => write key value) row = (Return tt, row') ->
  assoc k (as_dict row') = assoc k (as_dict row).
Proof.
  revert row. induction kw as [|[k0 v0] kw IH]; intros row Hk Hrun.
  - by injection Hrun as <-.
  - cbn [for_each] in Hrun. apply bind_inv in Hrun as ([] & r1 & Hw & Hrun).
    cbn in Hk. apply not_elem_of_cons in Hk as [Hne Hk].
    rewrite (IH r1 Hk Hrun). by eapply write_other.
Qed.

Lemma writes_same k v kw row row' :
  NoDup kw.*1 ->
  (k, v) ∈ kw ->
  for_each kw (fun '(key, value) => write key value) row = (Return tt, row') ->
  assoc k (as_dict row') = Some v.
Proof.
  revert row. induction kw as [|[k0 v0] kw IH]; intros row Hnd Hin Hrun.
  - by apply elem_of_nil in Hin.
  - cbn [for_each] in Hrun. apply bind_inv in Hrun as ([] & r1 & Hw & Hrun).
    cbn in Hnd. apply NoDup_cons in Hnd as [Hfresh Hnd].
    apply elem_of_cons in Hin as [[= -> ->]|Hin].
    + rewrite (writes_other k0 kw r1 row' Hfresh Hrun).
      by eapply write_same.
    + by eapply IH.
Qed.

(** X8: [_update_field] then [get]: the dictionary holds the value under
    the name written, and what it held before under every other name. *)
Theorem update_field_then_get
    (i : nat) (name : string) (info : FieldInfo) (v : Value)
    (s : ImageStore) (row : Row) :
  s !! i = Some row ->
  assoc name FIELDS = Some info ->
  has_type v (f_type info) = true ->
  exists row',
    (_update_field i name v ;; get i) s = (Return row', <[i := row']> s) /\
    assoc name (as_dict row') = Some v /\
    forall k, k <> name -> assoc k (as_dict row') = assoc k (as_dict row).
Proof.
  intros Hrow Hinfo Htype.
  destruct (proj2 (set_column_typed name info v row Hinfo) Htype)
    as [row' Hset].
  exists row'. split; [|by eapply set_column_as_dict].
  erewrite bind_Return; cycle 1.
  { unfold _update_field, bind, getitem, subscript. rewrite Hrow, Hinfo.
    cbn. by rewrite Hset. }
  unfold get, getitem.
  by rewrite list_lookup_insert_eq by (by eapply lookup_lt_Some).
Qed.

Lemma set_input_file_display_other k x row :
  k <> "input_file_display" ->
  assoc k (as_dict (set_input_file_display x row)) = assoc k (as_dict row).
Proof.
  intros Hk.
  by apply (set_column_as_dict "input_file_display" _ (VStr x) row _ eq_refl eq_refl).
Qed.

Lemma set_output_format_display_other k x row :
  k <> "output_format_display" ->
  assoc k (as_dict (set_output_format_display x row)) = assoc k (as_dict row).
Proof.
  intros Hk.
  by apply (set_column_as_dict "output_format_display" _ (VStr x) row _ eq_refl eq_refl).
Qed.

Lemma set_output_file_other k x row :
  k <> "output_file" ->
  assoc k (as_dict (set_output_file x row)) = assoc k (as_dict row).
Proof.
  intros Hk.
  by apply (set_column_as_dict "output_file" _ (VStr x) row _ eq_refl eq_refl).
Qed.

Lemma set_output_file_display_other k x row :
  k <> "output_file_display" ->
  assoc k (as_dict (set_output_file_display x row)) = assoc k (as_dict row).
Proof.
  intros Hk.
  by apply (set_column_as_dict "output_file_display" _ (VStr x) row _ eq_refl eq_refl).
Qed.

Lemma set_input_size_display_other k x row :
  k <> "input_size_display" ->
  assoc k (as_dict (set_input_size_display x row)) = assoc k (as_dict row).
Proof.
  intros Hk.
  by apply (set_column_as_dict "input_size_display" _ (VStr x) row _ eq_refl eq_refl).
Qed.

Lemma set_output_size_display_other k x row :
  k <> "output_size_display" ->
  assoc k (as_dict (set_output_size_display x row)) = assoc k (as_dict row).
Proof.
  intros Hk.
  by apply (set_column_as_dict "output_size_display" _ (VStr x) row _ eq_refl eq_refl).
Qed.

Lemma set_status_display_other k x row :
  k <> "status_display" ->
  assoc k (as_dict (set_status_display x row)) = assoc k (as_dict row).
Proof.
  intros Hk.
  by apply (set_column_as_dict "status_display" _ (VStr x) row _ eq_refl eq_refl).
Qed.

Ltac other_field Hk :=
  intros ->; apply Hk; cbn; set_solver.

(** The steps of [update] keep an argument they have stored, unless
    its field is one they compute. *)
Lemma update_steps_keep k v kw row row' :
  update_steps kw row = (Return tt, row') ->
  NoDup kw.*1 ->
  (k, v) ∈ kw ->
  k ∉ recomputed kw ->
  assoc k (as_dict row') = Some v.
Proof.
  unfold update_steps. intros Hrun Hnd Hin Hk.
  apply bind_inv in Hrun as ([] & r0 & H0 & Hrun).
  apply bind_inv in Hrun as ([] & r1 & H1 & Hrun).
  apply bind_inv in Hrun as ([] & r2 & H2 & Hrun).
  apply bind_inv in Hrun as ([] & r3 & H3 & Hrun).
  apply bind_inv in Hrun as ([] & r4 & H4 & Hrun).
  apply bind_inv in Hrun as ([] & r5 & H5 & H6).
  apply (writes_same k v kw row r0 Hnd Hin) in H0.
  apply input_file_display_step_inv in H1.
  apply output_format_step_inv in H2.
  apply output_file_display_step_inv in H3.
  apply input_size_display_step_inv in H4.
  apply output_size_display_step_inv in H5.
  apply status_display_step_inv in H6.
  unfold recomputed in Hk.
  destruct (kw_in "input_file" kw);
    destruct (_ || _) in H2, Hk;
    destruct (_ || _) in H3, Hk;
    destruct (kw_in "input_size" kw);
    destruct (kw_in "output_size" kw);
    destruct (kw_in "status" kw).
  all: repeat match goal with
              | Hx : exists _, _ |- _ => destruct Hx
              | Hx : _ /\ _ |- _ => destruct Hx
              end; subst.
  all: repeat first
         [ rewrite set_status_display_other by other_field Hk
         | rewrite set_output_size_display_other by other_field Hk
         | rewrite set_input_size_display_other by other_field Hk
         | rewrite set_output_file_display_other by other_field Hk
         | rewrite set_output_file_other by other_field Hk
         | rewrite set_output_format_display_other by other_field Hk
         | rewrite set_input_file_display_other by other_field Hk ].
  all: exact H0.
Qed.

(** X9: a call of [update] that returns has stored every argument whose
    field it does not compute itself: [get] then gives the value of
    the argument under its name. *)
Theorem update_stores_its_arguments
    (i : nat) (kw : kwargs) (s s' : ImageStore) (k : string) (v : Value) :
  update i kw s = (Return tt, s') ->
  NoDup kw.*1 ->
  (k, v) ∈ kw ->
  k ∉ recomputed kw ->
  exists row',
    get i s' = (Return row', s') /\ assoc k (as_dict row') = Some v.
Proof.
  intros Hrun Hnd Hin Hk. destruct (s !! i) as [row|] eqn:Hrow.
  - rewrite (update_at i kw s row Hrow) in Hrun.
    destruct (invalid_field kw); [discriminate|].
    destruct (update_steps kw row) as [[[]|e] row'] eqn:Hsteps;
      [|discriminate].
    injection Hrun as <-. exists row'. split.
    + unfold get, getitem.
      by rewrite list_lookup_insert_eq by (by eapply lookup_lt_Some).
    + by eapply update_steps_keep.
  - apply lookup_ge_None in Hrow.
    rewrite (update_out_of_range i kw s Hrow) in Hrun.
    destruct (invalid_field kw); [discriminate|].
    destruct kw; [by apply elem_of_nil in Hin | discriminate].
Qed.

End ReadBack.

(** * Further properties of the controller *)

Section Controller.
Context `{Env}.
Import OnRow.

(** X11: [do_activate] never raises, leaves a visible window, and does
    nothing more when it is called again; once the window exists it
    does not touch the state, and it never touches the images, the
    pool or the futures. *)
Theorem do_activate_is_idempotent (a : Application) :
  (do_activate a).1 = Return tt /\
  (do_activate ;; do_activate) a = do_activate a /\
  (exists w, _main_window (do_activate a).2 = Some w /\ visible w = true) /\
  (is_Some (_main_window a) ->
   current_state (do_activate a).2 = current_state a) /\
  (_main_window a = None ->
   current_state (do_activate a).2 = Some STATE_MANAGE_IMAGES) /\
  image_store (do_activate a).2 = image_store a /\
  _executor (do_activate a).2 = _executor a /\
  _futures (do_activate a).2 = _futures a.
Proof.
  destruct a as [st s [w|] ex fs ts]; cbn.
  - split; [done|]. split; [done|]. split; [eauto|].
    split; [done|]. split; [intros [=]|done].
  - split; [done|]. split; [done|]. split; [eauto|].
    split; [by intros [? [=]]|done].
Qed.

(** X12: while a batch is running, [do_open] shows the window and adds no
    image, whatever the files. *)
Theorem do_open_adds_nothing_while_optimizing
    (world : World) (files : list string) (a : Application)
    (w : MainWindow) :
  current_state a = Some STATE_OPTIMIZE ->
  _main_window a = Some w ->
  do_open world files a
  = (Return tt,
     set_main_window
       (Some {| window_state := window_state w; visible := true |}) a).
Proof.
  intros Hst Hw. unfold do_open.
  erewrite bind_Return; cycle 1.
  { unfold do_activate, bind, gets, modify. cbn. rewrite Hw. cbn.
    by rewrite Hw. }
  unfold bind, gets. cbn. rewrite Hst.
  by rewrite bool_decide_eq_true_2.
Qed.

(** X13: [add_image] on a file that cannot be read, or whose extension is
    not one of [.jpg], [.jpeg], [.png] (in any case), raises and
    leaves the application as it was. *)
Theorem add_image_refuses_before_it_appends
    (world : World) (path : string) (a : Application) :
  (forall e,
      st_size world (resolve world path) = Raise e ->
      add_image world path a = (Raise e, a)) /\
  (forall size,
      st_size world (resolve world path) = Return size ->
      assoc (lower (path_suffix (resolve world path))) _IMAGE_FORMATS = None ->
      add_image world path a
      = (Raise (KeyError (lower (path_suffix (resolve world path)))), a)).
Proof.
  split.
  - intros e He. unfold add_image, bind, lift. by rewrite He.
  - intros size Hsize Hext. unfold add_image, bind, lift, subscript.
    by rewrite Hsize, Hext.
Qed.

Lemma image_format_upper ext fmt_id :
  assoc ext _IMAGE_FORMATS = Some fmt_id ->
  fmt_id = "JPEG" \/ fmt_id = "PNG".
Proof.
  intros Hext. apply assoc_In in Hext. cbn in Hext.
  destruct Hext as [[= _ <-]|[[= _ <-]|[[= _ <-]|[]]]]; auto.
Qed.

(** The step of [update] for the output format, on a format that
    [IMAGES_FORMATS] has and an output file that takes a suffix. *)
Lemma output_format_step_run kw row fmt ext new_file :
  kw_in "output_format" kw || kw_in "jpeg_quality" kw
  || kw_in "webp_quality" kw || kw_in "png_slow_optimization" kw = true ->
  IMAGES_FORMATS !! output_format row = Some fmt ->
  (forall k f, IMAGES_FORMATS !! k = Some f -> exts f <> []) ->
  head (exts fmt) = Some ext ->
  path_with_suffix (output_file row) ext = Return new_file ->
  output_format_step kw row
  = (Return tt,
     set_output_file new_file
       (set_output_format_display
          (format_text (output_format row) fmt row) row)).
Proof.
  intros Hkw Hfmt Hexts Hext Hsuffix.
  unfold output_format_step, when. rewrite Hkw.
  unfold bind, read, gets, lift, subscript, format_text. cbn.
  rewrite (FORMATS_EXTS_Return Hexts).
  assert (Hlook : omap (fun f => head (exts f)) IMAGES_FORMATS
                    !! output_format row = Some ext)
    by (by rewrite lookup_omap, Hfmt).
  destruct (String.eqb_spec (output_format row) "jpeg") as [Heq|_];
    [rewrite Heq in *;
     by rewrite Hfmt; cbn; rewrite Hlook; cbn; rewrite Hsuffix|].
  destruct (String.eqb_spec (output_format row) "webp") as [Heq|_];
    [rewrite Heq in *;
     by rewrite Hfmt; cbn; rewrite Hlook; cbn; rewrite Hsuffix|].
  destruct (String.eqb_spec (output_format row) "png") as [Heq|_];
    [rewrite Heq in *;
     by rewrite Hfmt; cbn; rewrite Hlook; cbn; rewrite Hsuffix|].
  by rewrite Hfmt; cbn; rewrite Hlook; cbn; rewrite Hsuffix.
Qed.

(** The arguments of [add_image], stored in the row of defaults. *)
Lemma add_image_writes p o size fmt_id pix :
  for_each
    [("input_file", VStr p); ("output_file", VStr o);
     ("input_size", VInt size); ("output_size", VInt 0);
     ("input_format", VStr fmt_id); ("output_format", VStr fmt_id);
     ("preview", VPixbuf pix)]
    (fun '(key, value) => write key value) default_row
  = (Return tt,
     mkRow p o "" "" size 0 "" "" fmt_id fmt_id "" (Some pix) SEPARATOR
       0 "" 90 90 false).
Proof. vm_compute. reflexivity. Qed.

(** X14: the row that [add_image] adds for a file it accepts.  The format
    is the upper-case name of [_IMAGE_FORMATS], so none of the
    branches for ["jpeg"], ["webp"] and ["png"] is taken: the text of
    the format is its display name alone. *)
Theorem add_image_adds_this_row
    (world : World) (path : string) (a : Application)
    (size : Z) (fmt_id : string) (fmt : ImageFormat)
    (ext new_file : string) :
  let input_path := resolve world path in
  st_size world input_path = Return size ->
  assoc (lower (path_suffix input_path)) _IMAGE_FORMATS = Some fmt_id ->
  IMAGES_FORMATS !! fmt_id = Some fmt ->
  (forall k f, IMAGES_FORMATS !! k = Some f -> exts f <> []) ->
  head (exts fmt) = Some ext ->
  path_with_suffix (add_suffix_to_filename input_path) ext
  = Return new_file ->
  add_image world path a
  = (Return tt,
     set_image_store
       (image_store a
        ++ [mkRow input_path new_file (path_name input_path)
              (os_path_relpath new_file (path_parent input_path))
              size 0 (human_readable_file_size size) ""
              fmt_id fmt_id (display_name fmt)
              (Some (preview_gdk_pixbuf_from_path input_path))
              SEPARATOR 0 "" 90 90 false]) a).
Proof.
  intros input_path Hsize Hext Hfmt Hexts Hhead Hsuffix.
  unfold add_image. cbv zeta. fold input_path.
  erewrite bind_Return by (unfold lift; by rewrite Hsize).
  erewrite bind_Return by (by rewrite Hext).
  erewrite bind_Return by (by rewrite Hext).
  unfold on_store. rewrite append_at by reflexivity.
  set (pix := preview_gdk_pixbuf_from_path input_path).
  set (o := add_suffix_to_filename input_path) in *.
  set (name := path_name input_path).
  set (shown := os_path_relpath new_file (path_parent input_path)).
  set (text := human_readable_file_size size).
  enough (Hsteps :
            update_steps
              [("input_file", VStr input_path); ("output_file", VStr o);
               ("input_size", VInt size); ("output_size", VInt 0);
               ("input_format", VStr fmt_id); ("output_format", VStr fmt_id);
               ("preview", VPixbuf pix)] default_row
            = (Return tt,
               mkRow input_path new_file name shown size 0 text ""
                 fmt_id fmt_id (display_name fmt) (Some pix) SEPARATOR
                 0 "" 90 90 false))
    by (by rewrite Hsteps).
  unfold update_steps.
  rewrite (bind_Return _ _ _ _ _ (add_image_writes input_path o size fmt_id pix)).
  rewrite (bind_Return _ _ _ tt
             (mkRow input_path o name "" size 0 "" "" fmt_id fmt_id ""
                (Some pix) SEPARATOR 0 "" 90 90 false))
    by reflexivity.
  rewrite (bind_Return _ _ _ tt
             (mkRow input_path new_file name "" size 0 "" "" fmt_id fmt_id
                (display_name fmt) (Some pix) SEPARATOR 0 "" 90 90 false)).
  2:{ erewrite output_format_step_run by (done || reflexivity).
      destruct (image_format_upper _ _ Hext) as [-> | ->]; reflexivity. }
  rewrite (bind_Return _ _ _ tt
             (mkRow input_path new_file name shown size 0 "" "" fmt_id
                fmt_id (display_name fmt) (Some pix) SEPARATOR 0 "" 90 90
                false))
    by reflexivity.
  rewrite (bind_Return _ _ _ tt
             (mkRow input_path new_file name shown size 0 text "" fmt_id
                fmt_id (display_name fmt) (Some pix) SEPARATOR 0 "" 90 90
                false))
    by reflexivity.
  rewrite (bind_Return _ _ _ tt
             (mkRow input_path new_file name shown size 0 text "" fmt_id
                fmt_id (display_name fmt) (Some pix) SEPARATOR 0 "" 90 90
                false))
    by reflexivity.
  reflexivity.
Qed.

End Controller.

(** ** Batches that cannot run, or cannot go on *)

Section Batches.
Context `{Env}.
Import OnRow.

(** X15: before the window exists, [optimize] raises, and it has already
    set the state: no call is submitted and no pool is created, yet
    the application is left in [STATE_OPTIMIZE], where
    [stop_optimization], and so [quit], raises too for want of a pool. *)
Theorem optimize_without_a_window
    (world : World) (a : Application) :
  _main_window a = None ->
  _executor a = None ->
  optimize world a
  = (Raise AttributeError, set_current_state (Some STATE_OPTIMIZE) a) /\
  quit (optimize world a).2 = (Raise AttributeError, (optimize world a).2).
Proof.
  intros Hw Hex. destruct a as [st s w ex fs ts]. cbn in Hw, Hex. subst.
  split; reflexivity.
Qed.

(** X16: on an empty store, [optimize] ends the batch at once: it returns
    with the state back to [STATE_MANAGE_IMAGES], the new pool shut
    down, no future and no timeout added. *)
Theorem optimize_with_no_image
    (world : World) (a : Application) (w : MainWindow) :
  image_store a = [] ->
  _main_window a = Some w ->
  optimize world a
  = (Return tt,
     mkApp (Some STATE_MANAGE_IMAGES) []
       (Some {| window_state := Some STATE_MANAGE_IMAGES;
                visible := visible w |})
       (Some {| max_workers := 2; shutdown_called := true |})
       [] (timeout_sources a)).
Proof.
  intros Hrows Hw. rewrite (optimize_run world a w Hw).
  unfold submitted_all. rewrite Hrows. cbn.
  unfold _update_optimization_status, bind, gets. cbn.
  rewrite bool_decide_eq_false_2 by (by intros Hne; apply Hne).
  cbn. by rewrite bool_decide_eq_false_2 by (by intros Hne; apply Hne).
Qed.

(** The loop of the polling step changes the images only. *)
Lemma poll_loop_changes_the_store_only world l acc a :
  set_image_store [] (for_acc l acc (poll_future world) a).2
  = set_image_store [] a.
Proof.
  apply (preserves_for_acc (set_image_store [])). intros i b.
  unfold poll_future.
  destruct (running world i); [|destruct (done world i)].
  all: repeat (apply preserves_bind; [|intros ?]).
  all: first [ by apply preserves_on_store | apply preserves_ret
             | apply preserves_lift ].
Qed.

(** X17: when the polling step raises, it has neither set a timeout nor
    stopped the batch: the state, the pool, the futures and the
    timeouts are as they were, and only rows may have changed. *)
Theorem failed_poll_neither_rearms_nor_stops
    (world : World) (a a' : Application) (w : MainWindow)
    (ex : ThreadPoolExecutor) (e : exn) :
  current_state a = Some STATE_OPTIMIZE ->
  _main_window a = Some w ->
  _executor a = Some ex ->
  _update_optimization_status world a = (Raise e, a') ->
  a' = set_image_store (image_store a') a.
Proof.
  intros Hst Hw Hex. unfold _update_optimization_status.
  unfold bind at 1, gets at 1. cbn beta iota.
  rewrite Hst, bool_decide_eq_false_2 by (by intros Hne; apply Hne).
  unfold bind at 1, gets at 1. cbn beta iota.
  pose proof (poll_loop_changes_the_store_only world
                (seq 0 (List.length (_futures a))) false a) as Hloop.
  unfold bind.
  destruct (for_acc _ _ _ a) as [[b|e1] a1]; cbn in Hloop.
  - assert (Ha1 : a1 = set_image_store (image_store a1) a).
    { destruct a, a1. cbn in *. by injection Hloop as -> -> -> -> ->. }
    destruct b; [discriminate|].
    rewrite (stop_optimization_run a1 w ex); [discriminate|..];
      by rewrite Ha1.
  - intros [= _ <-].
    destruct a, a1. cbn in *. by injection Hloop as -> -> -> -> ->.
Qed.

(** X18: [clear_images] is not held back by a running batch: the next
    polling step then finds no row for the first future and raises
    [IndexError]. *)
Theorem poll_after_clear_images
    (world : World) (a : Application) :
  current_state a = Some STATE_OPTIMIZE ->
  _futures a <> [] ->
  (clear_images ;; _update_optimization_status world) a
  = (Raise IndexError, set_image_store [] a).
Proof.
  intros Hst Hfutures.
  erewrite bind_Return by reflexivity.
  unfold _update_optimization_status.
  unfold bind at 1, gets at 1. cbn beta iota. cbn [current_state set_image_store].
  rewrite Hst, bool_decide_eq_false_2 by (by intros Hne; apply Hne).
  unfold bind at 1, gets at 1. cbn beta iota. cbn [_futures set_image_store].
  destruct (_futures a) as [|f fs]; [done|]. cbn [List.length seq for_acc].
  apply bind_Raise, bind_Raise. unfold poll_future.
  assert (Hupdate : forall st,
             on_store (update 0 [("status", VInt st); ("output_size", VInt 0)])
               (set_image_store [] a)
             = (Raise IndexError, set_image_store [] a)).
  { intros st. unfold on_store. cbn [image_store set_image_store].
    by rewrite update_out_of_range. }
  destruct (running world 0); [|destruct (done world 0)].
  - apply bind_Raise, Hupdate.
  - by apply bind_Raise.
  - apply bind_Raise, Hupdate.
Qed.

(** X19: a future that is running or still pending resets the size of the
    output of its row: the polling step stores 0 and an empty text,
    whatever a previous batch had left there. *)
Theorem poll_resets_the_output_size
    (world : World) (i : nat) (acc : bool) (a : Application) (row : Row) :
  image_store a !! i = Some row ->
  running world i = true \/ done world i = false ->
  exists row',
    (poll_future world i acc a).1 = Return (acc || running world i) /\
    image_store (poll_future world i acc a).2
    = <[i := row']> (image_store a) /\
    output_size row' = 0 /\ output_size_display row' = "" /\
    status row' = future_status world i.
Proof.
  intros Hrow Hunfinished.
  assert (Hupdate : forall st text,
             _STATUS st = Some text ->
             update i [("status", VInt st); ("output_size", VInt 0)]
               (image_store a)
             = (Return tt,
                <[i := set_status_display text
                         (set_output_size_display ""
                            (set_output_size 0 (set_status st row)))]>
                  (image_store a))).
  { intros st text Htext.
    rewrite (update_at i _ (image_store a) row Hrow). cbn.
    unfold bind, read, gets, lift, subscript. cbn. by rewrite Htext. }
  unfold poll_future, future_status.
  destruct (running world i) eqn:Hrunning.
  - eexists. erewrite bind_Return
      by (apply on_store_update, (Hupdate STATUS_IN_PROGRESS _ eq_refl)).
    cbn. by rewrite orb_true_r.
  - destruct Hunfinished as [|Hdone]; [done|]. rewrite Hdone.
    eexists. erewrite bind_Return
      by (apply on_store_update, (Hupdate STATUS_PENDING _ eq_refl)).
    cbn. by rewrite orb_false_r.
Qed.

End Batches.

(** ** The settings of a format *)

Section Settings.
Context `{Env}.
Import OnRow.

Lemma update_setting i (s : ImageStore) row key v row1 fmt ext new_file :
  s !! i = Some row ->
  OnRow.invalid_field [(key, v)] = None ->
  write key v row = (Return tt, row1) ->
  output_format row1 = output_format row ->
  output_file row1 = output_file row ->
  kw_in "input_file" [(key, v)] = false ->
  kw_in "output_format" [(key, v)] || kw_in "jpeg_quality" [(key, v)]
  || kw_in "webp_quality" [(key, v)]
  || kw_in "png_slow_optimization" [(key, v)] = true ->
  kw_in "output_file" [(key, v)] || kw_in "output_format" [(key, v)] = false ->
  kw_in "input_size" [(key, v)] = false ->
  kw_in "output_size" [(key, v)] = false ->
  kw_in "status" [(key, v)] = false ->
  IMAGES_FORMATS !! output_format row = Some fmt ->
  (forall k f, IMAGES_FORMATS !! k = Some f -> exts f <> []) ->
  head (exts fmt) = Some ext ->
  path_with_suffix (output_file row) ext = Return new_file ->
  update i [(key, v)] s
  = (Return tt,
     <[i := set_output_file new_file
              (set_output_format_display
                 (format_text (output_format row) fmt row1) row1)]> s).
Proof.
  intros Hrow Hvalid Hwrite Hformat Hfile K1 K2 K3 K4 K5 K6
    Hfmt Hexts Hext Hsuffix.
  rewrite (update_at i _ s row Hrow), Hvalid.
  enough (Hsteps :
            update_steps [(key, v)] row
            = (Return tt,
               set_output_file new_file
                 (set_output_format_display
                    (format_text (output_format row) fmt row1) row1)))
    by (by rewrite Hsteps).
  unfold update_steps. cbn [for_each].
  erewrite bind_Return
    by (erewrite bind_Return by exact Hwrite; reflexivity).
  unfold input_file_display_step, output_file_display_step,
    input_size_display_step, output_size_display_step, status_display_step.
  rewrite K1, K3, K4, K5, K6. cbn [when].
  erewrite bind_Return by reflexivity.
  erewrite bind_Return; cycle 1.
  { apply (output_format_step_run _ row1 fmt ext new_file);
      rewrite ?Hformat, ?Hfile; done. }
  rewrite Hformat. reflexivity.
Qed.

(** X10: a new quality, or a new mode for PNG, is stored and shown at once:
    one update of [jpeg_quality], [webp_quality] or
    [png_slow_optimization] rewrites the text of the output format
    from the new value.  It also sets the extension of [output_file]
    again, and leaves [output_file_display] as it was. *)
Theorem setting_update_refreshes_the_format_text
    (i : nat) (s : ImageStore) (row : Row) (fmt : ImageFormat)
    (ext new_file : string) (quality : Z) (slow : bool) :
  s !! i = Some row ->
  IMAGES_FORMATS !! output_format row = Some fmt ->
  (forall k f, IMAGES_FORMATS !! k = Some f -> exts f <> []) ->
  head (exts fmt) = Some ext ->
  path_with_suffix (output_file row) ext = Return new_file ->
  update i [("jpeg_quality", VInt quality)] s
  = (Return tt,
     <[i := set_output_file new_file
              (set_output_format_display
                 (format_text (output_format row) fmt
                    (set_jpeg_quality quality row))
                 (set_jpeg_quality quality row))]> s) /\
  update i [("webp_quality", VInt quality)] s
  = (Return tt,
     <[i := set_output_file new_file
              (set_output_format_display
                 (format_text (output_format row) fmt
                    (set_webp_quality quality row))
                 (set_webp_quality quality row))]> s) /\
  update i [("png_slow_optimization", VBool slow)] s
  = (Return tt,
     <[i := set_output_file new_file
              (set_output_format_display
                 (format_text (output_format row) fmt
                    (set_png_slow_optimization slow row))
                 (set_png_slow_optimization slow row))]> s).
Proof.
  intros Hrow Hfmt Hexts Hext Hsuffix.
  split; [|split]; by eapply update_setting.
Qed.

End Settings.

(** ** The further properties on the environment of [Demo] *)

Lemma demo_formats_have_extensions k f :
  Demo.formats !! k = Some f -> exts f <> [].
Proof.
  intros Hk.
  assert (Hin : (k, f) ∈ map_to_list Demo.formats)
    by (by apply elem_of_map_to_list).
  vm_compute in Hin.
  repeat (apply elem_of_cons in Hin as [Hin|Hin]; [by inversion Hin|]).
  by apply elem_of_nil in Hin.
Qed.

Lemma demo_upper_formats_have_extensions k f :
  Demo.formats_upper !! k = Some f -> exts f <> [].
Proof.
  intros Hk.
  assert (Hin : (k, f) ∈ map_to_list Demo.formats_upper)
    by (by apply elem_of_map_to_list).
  vm_compute in Hin.
  repeat (apply elem_of_cons in Hin as [Hin|Hin]; [by inversion Hin|]).
  by apply elem_of_nil in Hin.
Qed.

(** [append(output_size=5)] raises, and has added a row. *)
Lemma append_adds_one_row_witness :
  exists row',
    (append (H:=Demo.env) [("output_size", VInt 5)] [Demo.photo]).2
    = [Demo.photo] ++ [row'] /\
    (append (H:=Demo.env) [("output_size", VInt 5)] [Demo.photo]).1
    = (OnRow.update_steps (H:=Demo.env) [("output_size", VInt 5)]
         default_row).1.
Proof.
  apply (append_adds_one_row_at_the_end (H:=Demo.env)
           [("output_size", VInt 5)] [Demo.photo]).
  reflexivity.
Defined.

Lemma remove_at_index_witness :
  remove_at_index 0 Demo.batch = (Return tt, delete 0%nat Demo.batch) /\
  Datatypes.S (List.length (delete 0%nat Demo.batch)) = List.length Demo.batch /\
  (forall j, (j < 0)%nat -> delete 0%nat Demo.batch !! j = Demo.batch !! j) /\
  (forall j, (0 <= j)%nat ->
             delete 0%nat Demo.batch !! j = Demo.batch !! Datatypes.S j).
Proof.
  apply (remove_at_index_removes_the_row 0 Demo.batch).
  vm_compute. lia.
Defined.

Lemma append_then_remove_witness :
  remove_at_index (List.length Demo.batch)
    (append (H:=Demo.env) Demo.photo_kw Demo.batch).2
  = (Return tt, Demo.batch).
Proof.
  apply (append_then_remove_last (H:=Demo.env) Demo.photo_kw Demo.batch).
  reflexivity.
Defined.

Lemma unknown_status_witness :
  update (H:=Demo.env) 0 [("status", VInt 7)] [Demo.photo]
  = (Raise (KeyError (pct_i 7)), <[0%nat := set_status 7 Demo.photo]> [Demo.photo]).
Proof.
  apply (unknown_status_is_stored_then_raises (H:=Demo.env) 0 [Demo.photo]
           Demo.photo 7).
  - reflexivity.
  - reflexivity.
Defined.

Lemma unknown_output_format_witness :
  update (H:=Demo.env) 0 [("output_format", VStr "gif")] [Demo.photo]
  = (Raise (KeyError "gif"),
     <[0%nat := set_output_format "gif" Demo.photo]> [Demo.photo]).
Proof.
  apply (unknown_output_format_is_stored_then_raises (H:=Demo.env) 0
           [Demo.photo] Demo.photo "gif").
  - reflexivity.
  - reflexivity.
  - exact demo_formats_have_extensions.
Defined.

Lemma update_field_then_get_witness :
  exists row',
    (_update_field 0 "jpeg_quality" (VInt 80) ;; get 0) [Demo.photo]
    = (Return row', <[0%nat := row']> [Demo.photo]) /\
    assoc "jpeg_quality" (as_dict row') = Some (VInt 80) /\
    forall k, k <> "jpeg_quality" ->
              assoc k (as_dict row') = assoc k (as_dict Demo.photo).
Proof.
  apply (update_field_then_get 0 "jpeg_quality"
           {| f_id := 15; f_type := TInt; f_default := VInt 90 |}
           (VInt 80) [Demo.photo] Demo.photo).
  - reflexivity.
  - reflexivity.
  - reflexivity.
Defined.

Lemma update_stores_witness :
  exists row',
    get 0 [set_output_file_display "bbb.png"
             (set_output_file "bbb.png" Demo.photo)]
    = (Return row',
       [set_output_file_display "bbb.png"
          (set_output_file "bbb.png" Demo.photo)]) /\
    assoc "output_file" (as_dict row') = Some (VStr "bbb.png").
Proof.
  apply (update_stores_its_arguments (H:=Demo.env) 0
           [("output_file", VStr "bbb.png")] [Demo.photo]
           [set_output_file_display "bbb.png"
              (set_output_file "bbb.png" Demo.photo)]
           "output_file" (VStr "bbb.png")).
  - vm_compute. reflexivity.
  - vm_compute. apply NoDup_singleton.
  - apply list_elem_of_here.
  - vm_compute. intros Hin. apply list_elem_of_singleton in Hin.
    discriminate Hin.
Defined.

Lemma setting_update_witness :
  update (H:=Demo.env) 0 [("jpeg_quality", VInt 80)] [Demo.photo]
  = (Return tt,
     <[0%nat := set_output_file "/tmp/a.opti.jpg"
                  (set_output_format_display "JPEG (80 %)"
                     (set_jpeg_quality 80 Demo.photo))]> [Demo.photo]) /\
  update (H:=Demo.env) 0 [("webp_quality", VInt 80)] [Demo.photo]
  = (Return tt,
     <[0%nat := set_output_file "/tmp/a.opti.jpg"
                  (set_output_format_display "JPEG (90 %)"
                     (set_webp_quality 80 Demo.photo))]> [Demo.photo]) /\
  update (H:=Demo.env) 0 [("png_slow_optimization", VBool true)] [Demo.photo]
  = (Return tt,
     <[0%nat := set_output_file "/tmp/a.opti.jpg"
                  (set_output_format_display "JPEG (90 %)"
                     (set_png_slow_optimization true Demo.photo))]>
       [Demo.photo]).
Proof.
  apply (setting_update_refreshes_the_format_text (H:=Demo.env) 0
           [Demo.photo] Demo.photo
           {| display_name := "JPEG"; exts := [".jpg"; ".jpeg"] |}
           ".jpg" "/tmp/a.opti.jpg" 80 true).
  - reflexivity.
  - reflexivity.
  - exact demo_formats_have_extensions.
  - reflexivity.
  - reflexivity.
Defined.

Lemma do_activate_witness :
  current_state (do_activate (Demo.optimizing Demo.batch)).2
  = Some STATE_OPTIMIZE /\
  current_state (do_activate __init__).2 = Some STATE_MANAGE_IMAGES.
Proof.
  destruct (do_activate_is_idempotent (Demo.optimizing Demo.batch))
    as (_ & _ & _ & Hkept & _).
  destruct (do_activate_is_idempotent __init__)
    as (_ & _ & _ & _ & Hnew & _).
  split.
  - apply Hkept. vm_compute. eauto.
  - apply Hnew. reflexivity.
Defined.

Lemma do_open_witness :
  do_open (H:=Demo.env) Demo.world ["/tmp/c.png"] (Demo.optimizing Demo.batch)
  = (Return tt,
     set_main_window
       (Some {| window_state := Some STATE_OPTIMIZE; visible := true |})
       (Demo.optimizing Demo.batch)).
Proof.
  apply (do_open_adds_nothing_while_optimizing (H:=Demo.env) Demo.world
           ["/tmp/c.png"] (Demo.optimizing Demo.batch) Demo.busy_window).
  - reflexivity.
  - reflexivity.
Defined.

Lemma add_image_refuses_witness :
  add_image (H:=Demo.env) Demo.world_missing "/tmp/a.jpg"
    (Demo.managing Demo.batch)
  = (Raise OSError, Demo.managing Demo.batch) /\
  add_image (H:=Demo.env) Demo.world "/tmp/a.gif" (Demo.managing Demo.batch)
  = (Raise (KeyError ".gif"), Demo.managing Demo.batch).
Proof.
  destruct (add_image_refuses_before_it_appends (H:=Demo.env)
              Demo.world_missing "/tmp/a.jpg" (Demo.managing Demo.batch))
    as [Hstat _].
  destruct (add_image_refuses_before_it_appends (H:=Demo.env)
              Demo.world "/tmp/a.gif" (Demo.managing Demo.batch))
    as [_ Hext].
  split.
  - apply Hstat. reflexivity.
  - apply (Hext 40); reflexivity.
Defined.

Lemma add_image_adds_witness :
  add_image (H:=Demo.env_upper) Demo.world "/tmp/c.JPG" (Demo.managing [])
  = (Return tt,
     set_image_store
       ([] ++ [mkRow "/tmp/c.JPG" "/tmp/c.opti.jpg" "c.JPG" "c.opti.jpg"
                 40 0 "40 B" "" "JPEG" "JPEG" "JPEG" (Some 0%N) SEPARATOR
                 0 "" 90 90 false])
       (Demo.managing [])).
Proof.
  apply (add_image_adds_this_row (H:=Demo.env_upper) Demo.world "/tmp/c.JPG"
           (Demo.managing []) 40 "JPEG"
           {| display_name := "JPEG"; exts := [".jpg"; ".jpeg"] |}
           ".jpg" "/tmp/c.opti.jpg").
  - reflexivity.
  - reflexivity.
  - reflexivity.
  - exact demo_upper_formats_have_extensions.
  - reflexivity.
  - reflexivity.
Defined.

Lemma optimize_without_a_window_witness :
  optimize (H:=Demo.env) Demo.world __init__
  = (Raise AttributeError, set_current_state (Some STATE_OPTIMIZE) __init__) /\
  quit (optimize (H:=Demo.env) Demo.world __init__).2
  = (Raise AttributeError, (optimize (H:=Demo.env) Demo.world __init__).2).
Proof.
  apply (optimize_without_a_window (H:=Demo.env) Demo.world __init__).
  - reflexivity.
  - reflexivity.
Defined.

Lemma optimize_with_no_image_witness :
  optimize (H:=Demo.env) Demo.world (Demo.managing [])
  = (Return tt,
     mkApp (Some STATE_MANAGE_IMAGES) []
       (Some {| window_state := Some STATE_MANAGE_IMAGES; visible := true |})
       (Some {| max_workers := 2; shutdown_called := true |})
       [] []).
Proof.
  apply (optimize_with_no_image (H:=Demo.env) Demo.world (Demo.managing [])
           Demo.window).
  - reflexivity.
  - reflexivity.
Defined.

(** No output file exists although the futures are done: the step
    raises on the first row and the batch stays as it is. *)
Lemma failed_poll_witness :
  (_update_optimization_status (H:=Demo.env) Demo.world_missing
     (Demo.optimizing Demo.batch)).2
  = set_image_store
      (image_store
         (_update_optimization_status (H:=Demo.env) Demo.world_missing
            (Demo.optimizing Demo.batch)).2)
      (Demo.optimizing Demo.batch).
Proof.
  apply (failed_poll_neither_rearms_nor_stops (H:=Demo.env)
           Demo.world_missing (Demo.optimizing Demo.batch) _
           Demo.busy_window {| max_workers := 2; shutdown_called := false |}
           OSError).
  - reflexivity.
  - reflexivity.
  - reflexivity.
  - vm_compute. reflexivity.
Defined.

Lemma poll_after_clear_images_witness :
  (clear_images ;; _update_optimization_status (H:=Demo.env) Demo.world)
    (Demo.optimizing Demo.batch)
  = (Raise IndexError, set_image_store [] (Demo.optimizing Demo.batch)).
Proof.
  apply (poll_after_clear_images (H:=Demo.env) Demo.world
           (Demo.optimizing Demo.batch)).
  - reflexivity.
  - discriminate.
Defined.

Lemma poll_resets_witness :
  exists row',
    (poll_future (H:=Demo.env) Demo.world 0 false
       (Demo.optimizing Demo.batch)).1
    = Return (false || running Demo.world 0) /\
    image_store
      (poll_future (H:=Demo.env) Demo.world 0 false
         (Demo.optimizing Demo.batch)).2
    = <[0%nat := row']> (image_store (Demo.optimizing Demo.batch)) /\
    output_size row' = 0 /\ output_size_display row' = "" /\
    status row' = future_status Demo.world 0.
Proof.
  apply (poll_resets_the_output_size (H:=Demo.env) Demo.world 0 false
           (Demo.optimizing Demo.batch) Demo.photo).
  - reflexivity.
  - left. reflexivity.
Defined.
